(** * Baseline reconciliation of basedpyright, verified over a shallow embedding

    Source: [packages/pyright-internal/src/baseline.ts].

    The TypeScript module reads and writes [.basedpyright/baseline.json] and
    matches the diagnostics of a file against the entries recorded for it.
    The functions of that module are translated below, effect by effect:
    exceptions become a [Result], the file system is passed explicitly, and
    JavaScript objects used as dictionaries list their keys in the order
    JavaScript enumerates them. *)

From Stdlib Require Import List String Ascii ZArith Bool Lia.
From Stdlib Require Import Permutation Sorted DecimalString.
Import ListNotations.

Local Open Scope string_scope.
Local Open Scope Z_scope.
Local Open Scope list_scope.

(** ** The JavaScript runtime, as far as the module uses it *)

(** Exceptions the module can let escape. [UntypedJson] marks the edge of the
    typed model: [JSON.parse] produced a value that is not a [BaselineFile],
    which the TypeScript signature of [getBaselinedErrors] does not foresee. *)
Inductive JsError : Type :=
| SyntaxError
| TypeError
| AssertionError
| UntypedJson.

Inductive Result (A : Type) : Type :=
| Ok (a : A)
| Throw (e : JsError).

Arguments Ok {A} a.
Arguments Throw {A} e.

Definition bind {A B : Type} (r : Result A) (k : A -> Result B) : Result B :=
  match r with
  | Ok a => k a
  | Throw e => Throw e
  end.

Notation "x <- r ;; k" := (bind r (fun x => k))
  (at level 61, r at next level, right associativity).

(** [assert(cond, message)] of [common/debug]. *)
Definition assert (cond : bool) : Result unit :=
  if cond then Ok tt else Throw AssertionError.

(** A plain object used as a dictionary: a list of its own string keys with
    their values, in the order JavaScript enumerates them: first the keys that
    are array indices, in ascending numeric order, then the other keys in the
    order they were created. Properties inherited from [Object.prototype] are
    not part of the model. *)
Definition JsObject (V : Type) : Type := list (string * V).

Fixpoint obj_get {V : Type} (o : JsObject V) (k : string) : option V :=
  match o with
  | [] => None
  | (k', v) :: rest => if String.eqb k' k then Some v else obj_get rest k
  end.

(** [k in o] *)
Definition obj_has {V : Type} (o : JsObject V) (k : string) : bool :=
  match obj_get o k with
  | Some _ => true
  | None => false
  end.

(** The number a string of decimal digits denotes, after [acc]. *)
Fixpoint digitsValue (s : string) (acc : N) : option N :=
  match s with
  | EmptyString => Some acc
  | String c rest =>
      let n := N_of_ascii c in
      if ((48 <=? n) && (n <=? 57))%N
      then digitsValue rest (10 * acc + (n - 48))%N
      else None
  end.

(** An array index: the canonical decimal form of an integer below
    [2^32 - 1] ([0], [7], [10]; not [007], not [1.5], not [./10]). *)
Definition isArrayIndex (k : string) : bool :=
  match k with
  | EmptyString => false
  | String c rest =>
      if Ascii.eqb c "0"
      then match rest with
           | EmptyString => true
           | String _ _ => false
           end
      else match digitsValue k 0 with
           | Some n => (n <? 4294967295)%N
           | None => false
           end
  end.

(** Ascending numeric order of two array indices: canonical forms compare by
    length first and digit by digit next. *)
Definition indexBefore (a b : string) : bool :=
  (String.length a <? String.length b)%nat
  || ((String.length a =? String.length b)%nat
      && match String.compare a b with
         | Lt => true
         | _ => false
         end).

(** Whether the new key [k] is enumerated before the key [k'] already there. *)
Definition comesFirst (k k' : string) : bool :=
  isArrayIndex k && (negb (isArrayIndex k') || indexBefore k k').

Fixpoint obj_replace {V : Type} (o : JsObject V) (k : string) (v : V)
  : JsObject V :=
  match o with
  | [] => []
  | (k', v') :: rest =>
      if String.eqb k' k then (k', v) :: rest
      else (k', v') :: obj_replace rest k v
  end.

Fixpoint obj_insert {V : Type} (o : JsObject V) (k : string) (v : V)
  : JsObject V :=
  match o with
  | [] => [(k, v)]
  | (k', v') :: rest =>
      if comesFirst k k' then (k, v) :: (k', v') :: rest
      else (k', v') :: obj_insert rest k v
  end.

(** [o[k] = v]: an existing key keeps its place; a new key that is an array
    index takes its numeric place among the array indices, any other new key
    goes last. *)
Definition obj_set {V : Type} (o : JsObject V) (k : string) (v : V)
  : JsObject V :=
  if obj_has o k then obj_replace o k v else obj_insert o k v.

(** The order in which an object lists two of its keys when the keys that are
    not array indices were created in ascending order. *)
Definition keyBefore (a b : string) : Prop :=
  if isArrayIndex a
  then (if isArrayIndex b then indexBefore a b = true else True)
  else (if isArrayIndex b then False else String.compare a b = Lt).

(** [Object.keys(o)] and the order of [for (const k in o)]. *)
Definition obj_keys {V : Type} (o : JsObject V) : list string := map fst o.

(** [Array.prototype.sort(compareFn)]: a stable sort; [a] goes before [b] when
    [compareFn(a, b) < 0] and ties keep the order they came in. *)
Fixpoint sort_insert {A : Type} (compareFn : A -> A -> Z) (x : A) (l : list A)
  : list A :=
  match l with
  | [] => [x]
  | y :: ys =>
      if compareFn x y <=? 0 then x :: y :: ys
      else y :: sort_insert compareFn x ys
  end.

Fixpoint Array_sort {A : Type} (compareFn : A -> A -> Z) (l : list A) : list A :=
  match l with
  | [] => []
  | x :: xs => sort_insert compareFn x (Array_sort compareFn xs)
  end.

(** [a] may stand before [b] in the sorted array. *)
Definition before {A : Type} (compareFn : A -> A -> Z) (a b : A) : Prop :=
  compareFn a b <= 0.

(** A comparison function [sort] can rely on: any two items are ordered, the
    order is transitive, and swapping the arguments swaps the sign. *)
Definition consistent {A : Type} (compareFn : A -> A -> Z) : Prop :=
  (forall a b, before compareFn a b \/ before compareFn b a)
  /\ (forall a b c,
        before compareFn a b -> before compareFn b c -> before compareFn a c)
  /\ (forall a b, compareFn a b < 0 -> 0 < compareFn b a).

(** The comparison [sort()] uses without an argument: strings by code unit. *)
Definition defaultCompare (a b : string) : Z :=
  match String.compare a b with
  | Lt => -1
  | Eq => 0
  | Gt => 1
  end.

(** Truthiness of a [string | undefined]. *)
Definition truthy (s : option string) : bool :=
  match s with
  | Some s' => negb (String.eqb s' "")
  | None => false
  end.

(** ** Data model *)

Definition DiagnosticRule : Type := string.
Definition DiagnosticLevel : Type := string.
Definition Uri : Type := string.

(** [DiagnosticCategory] of [common/diagnostic]. *)
Inductive DiagnosticCategory : Type :=
| Error
| Warning
| Information
| UnusedCode
| UnreachableCode
| Deprecated.

Definition DiagnosticCategory_eqb (a b : DiagnosticCategory) : bool :=
  match a, b with
  | Error, Error | Warning, Warning | Information, Information
  | UnusedCode, UnusedCode | UnreachableCode, UnreachableCode
  | Deprecated, Deprecated => true
  | _, _ => false
  end.

Inductive BaselineStatus : Type :=
| Baselined           (* 'baselined' *)
| BaselinedWithHint.  (* 'baselined with hint' *)

Record Position : Type := mkPosition { line : Z; character : Z }.

Record Range : Type := mkRange { start : Position; end_ : Position }.

(** The fields of [Diagnostic] the module reads or sets. *)
Record Diagnostic : Type := mkDiagnostic {
  category : DiagnosticCategory;
  message : string;
  range : Range;
  rule : option DiagnosticRule;
  baselineStatus : option BaselineStatus
}.

Definition getRule (d : Diagnostic) : option DiagnosticRule := rule d.

Definition setRule (d : Diagnostic) (r : DiagnosticRule) : Diagnostic :=
  mkDiagnostic (category d) (message d) (range d) (Some r) (baselineStatus d).

(** [diagnostic.copy({ category?, baselineStatus? })]: a new diagnostic with
    the given fields replaced and every other field kept. *)
Definition copy (d : Diagnostic) (newCategory : option DiagnosticCategory)
  (newStatus : option BaselineStatus) : Diagnostic :=
  mkDiagnostic
    (match newCategory with Some c => c | None => category d end)
    (message d) (range d) (rule d)
    (match newStatus with Some s => Some s | None => baselineStatus d end).

Record BaselinedRange : Type := mkBaselinedRange {
  startColumn : Z;
  endColumn : Z;
  rangeLineCount : option Z   (* lineCount?: number *)
}.

Record BaselinedDiagnostic : Type := mkBaselinedDiagnostic {
  code : option DiagnosticRule;
  brange : BaselinedRange
}.

Record BaselineFile : Type := mkBaselineFile {
  files : JsObject (list BaselinedDiagnostic)
}.

Record FileDiagnostics : Type := mkFileDiagnostics {
  fileUri : Uri;
  diagnostics : list Diagnostic
}.

(** A change object of [diffArrays]. The library takes the values of removed
    chunks from the old array and those of added and unchanged chunks from the
    new one, so the three shapes carry differently typed values. *)
Inductive Change : Type :=
| Removed (value : list BaselinedDiagnostic)     (* removed: true *)
| Added (value : list Diagnostic)                (* added: true *)
| Unchanged (value : list Diagnostic).

(** What [JSON.parse] can do with the text of the baseline file. *)
Inductive ParseOutcome : Type :=
| ParseSyntaxError
| Parsed (b : BaselineFile)
| ParsedUntyped.

(** The file system: regular files with their text. Directories are not
    tracked, and [mkdirSync]/[writeFileSync] are taken to succeed. *)
Definition FileSystem : Type := list (Uri * string).

(** [fs.readFileSync(path, 'utf8')]: [None] when the call throws. *)
Definition readFileSync (fs : FileSystem) (path : Uri) : option string :=
  obj_get fs path.

(** [fileExists(fs, uri)] of [common/uri/uriUtils]. *)
Definition fileExists (fs : FileSystem) (path : Uri) : bool :=
  obj_has fs path.

Definition mkdirSync (fs : FileSystem) (dir : Uri) : FileSystem := fs.

Definition writeFileSync (fs : FileSystem) (path : Uri) (data : string)
  : FileSystem := obj_set fs path data.

Definition rule_eqb (a b : option DiagnosticRule) : bool :=
  match a, b with
  | Some x, Some y => String.eqb x y
  | None, None => true
  | _, _ => false
  end.

(** [const lineCount = (range: Range) => range.end.line - range.start.line + 1] *)
Definition lineCount (r : Range) : Z := line (end_ r) - line (start r) + 1.

(** The filter of [diagnosticsToBaseline]. *)
Definition isErrorDiagnostic (diagnostic : Diagnostic) : bool :=
  negb (existsb (DiagnosticCategory_eqb (category diagnostic))
          [Deprecated; UnreachableCode; UnusedCode])
  || match baselineStatus diagnostic with
     | Some BaselinedWithHint => true
     | _ => false
     end.

(** The object literal [diagnosticsToBaseline] maps each diagnostic to. *)
Definition toBaselinedDiagnostic (diagnostic : Diagnostic) : BaselinedDiagnostic :=
  {| code := getRule diagnostic;
     brange := {| startColumn := character (start (range diagnostic));
                  endColumn := character (end_ (range diagnostic));
                  rangeLineCount := Some (lineCount (range diagnostic)) |} |}.

(** The [comparator] handed to [diffArrays]. *)
Definition comparator (baselinedDiagnostic : BaselinedDiagnostic)
  (diagnostic : Diagnostic) : bool :=
  rule_eqb (code baselinedDiagnostic) (getRule diagnostic)
  && (startColumn (brange baselinedDiagnostic)
      =? character (start (range diagnostic)))
  && (endColumn (brange baselinedDiagnostic)
      =? character (end_ (range diagnostic)))
  && match rangeLineCount (brange baselinedDiagnostic) with
     | None => true
     | Some n => n =? lineCount (range diagnostic)
     end.

(** The same diagnostic reported [k] lines further down. *)
Definition shiftLines (k : Z) (d : Diagnostic) : Diagnostic :=
  mkDiagnostic (category d) (message d)
    (mkRange (mkPosition (line (start (range d)) + k)
                (character (start (range d))))
             (mkPosition (line (end_ (range d)) + k)
                (character (end_ (range d)))))
    (rule d) (baselineStatus d).

(** The contract of [diffArrays(old, new, { comparator })]: the change objects
    spell [old] through their removed and unchanged chunks and [new] through
    their added and unchanged chunks; an unchanged chunk pairs every old item
    with a new item the comparator accepts; removed and added chunks are never
    empty. *)
Inductive edit_script (eq : BaselinedDiagnostic -> Diagnostic -> bool)
  : list BaselinedDiagnostic -> list Diagnostic -> list Change -> Prop :=
| ES_done : edit_script eq [] [] []
| ES_removed v old new cs :
    v <> [] -> edit_script eq old new cs ->
    edit_script eq (v ++ old) new (Removed v :: cs)
| ES_added v old new cs :
    v <> [] -> edit_script eq old new cs ->
    edit_script eq old (v ++ new) (Added v :: cs)
| ES_unchanged o v old new cs :
    Forall2 (fun e d => eq e d = true) o v -> edit_script eq old new cs ->
    edit_script eq (o ++ old) (v ++ new) (Unchanged v :: cs).

(** The items of the new array as the change objects list them, each with
    what its chunk says of it: [true] for an item of a chunk that is neither
    added nor removed, which [diffArrays] paired with an item of the old
    array, [false] for an item of an added chunk. *)
Fixpoint pairedFlags (diff : list Change) : list bool :=
  match diff with
  | [] => []
  | Removed _ :: rest => pairedFlags rest
  | Added value :: rest => map (fun _ => false) value ++ pairedFlags rest
  | Unchanged value :: rest => map (fun _ => true) value ++ pairedFlags rest
  end.

(** The number of items the change objects pair. *)
Fixpoint unchangedCount (diff : list Change) : nat :=
  match diff with
  | [] => 0
  | Unchanged value :: rest => List.length value + unchangedCount rest
  | _ :: rest => unchangedCount rest
  end.

(** Every item of [new] has an item of [old] of its own that the comparator
    accepts for it, and these items of [old] come in the order of [new]. *)
Inductive pairedInOrder (eq : BaselinedDiagnostic -> Diagnostic -> bool)
  : list BaselinedDiagnostic -> list Diagnostic -> Prop :=
| PIO_done old : pairedInOrder eq old []
| PIO_skip e old new :
    pairedInOrder eq old new -> pairedInOrder eq (e :: old) new
| PIO_pair e d old new :
    eq e d = true -> pairedInOrder eq old new ->
    pairedInOrder eq (e :: old) (d :: new).

(** ** Reference collaborators

    Executable stand-ins for what [baseline.ts] imports, used to run the
    module on concrete inputs: a JSON printer and reader for the shape of the
    baseline file, path arithmetic on slash-separated paths, a
    longest-common-subsequence differ and the comparison of diagnostics. *)

#[warnings="-register-all"] Inductive Json : Type :=
| JNull
| JBool (b : bool)
| JNum (z : Z)
| JStr (s : string)
| JArr (items : list Json)
| JObj (members : list (string * Json))
| JOutside.   (* a fraction, an exponent or text beyond ASCII *)

Definition newline : string := String "010" EmptyString.

Fixpoint pad (depth : nat) : string :=
  match depth with
  | O => ""
  | S d => ("    " ++ pad d)%string
  end.

Fixpoint join (sep : string) (parts : list string) : string :=
  match parts with
  | [] => ""
  | [p] => p
  | p :: rest => (p ++ sep ++ join sep rest)%string
  end.

Definition string_of_Z (z : Z) : string := NilZero.string_of_int (Z.to_int z).

Definition hex_digit (n : N) : ascii :=
  if (n <? 10)%N then ascii_of_N (48 + n) else ascii_of_N (87 + n).

Definition escape_char (c : ascii) : string :=
  let n := N_of_ascii c in
  if (n =? 34)%N then String "092" (String "034" EmptyString)
  else if (n =? 92)%N then "\\"
  else if (n =? 8)%N then "\b"
  else if (n =? 9)%N then "\t"
  else if (n =? 10)%N then "\n"
  else if (n =? 12)%N then "\f"
  else if (n =? 13)%N then "\r"
  else if (n <? 32)%N then
    ("\u00" ++ String (hex_digit (n / 16)) (String (hex_digit (n mod 16)) ""))%string
  else String c "".

Fixpoint escape (s : string) : string :=
  match s with
  | EmptyString => ""
  | String c rest => (escape_char c ++ escape rest)%string
  end.

Definition quote (s : string) : string :=
  String "034" (escape s ++ String "034" EmptyString)%string.

(** [JSON.stringify(value, undefined, 4)] *)
Fixpoint json_print (depth : nat) (j : Json) : string :=
  match j with
  | JNull => "null"
  | JBool true => "true"
  | JBool false => "false"
  | JNum z => string_of_Z z
  | JStr s => quote s
  | JArr [] => "[]"
  | JArr items =>
      ("[" ++ newline
       ++ join ("," ++ newline)
            (map (fun x => pad (S depth) ++ json_print (S depth) x) items)
       ++ newline ++ pad depth ++ "]")%string
  | JObj [] => "{}"
  | JObj members =>
      ("{" ++ newline
       ++ join ("," ++ newline)
            (map (fun kv => pad (S depth) ++ quote (fst kv) ++ ": "
                            ++ json_print (S depth) (snd kv)) members)
       ++ newline ++ pad depth ++ "}")%string
  | JOutside => "null"
  end.

Definition json_of_entry (e : BaselinedDiagnostic) : Json :=
  JObj
    (match code e with
     | Some c => [("code", JStr c)]
     | None => []
     end
     ++ [("range",
          JObj ([("startColumn", JNum (startColumn (brange e)));
                 ("endColumn", JNum (endColumn (brange e)))]
                ++ match rangeLineCount (brange e) with
                   | Some n => [("lineCount", JNum n)]
                   | None => []
                   end))]).

Definition json_of_baseline (b : BaselineFile) : Json :=
  JObj [("files",
         JObj (map (fun kv => (fst kv, JArr (map json_of_entry (snd kv))))
                 (files b)))].

Definition jsonStringify (b : BaselineFile) : string :=
  json_print 0 (json_of_baseline b).

Definition is_ws (c : ascii) : bool :=
  let n := N_of_ascii c in
  ((n =? 32) || (n =? 9) || (n =? 10) || (n =? 13))%N.

Fixpoint skip_ws (cs : list ascii) : list ascii :=
  match cs with
  | c :: rest => if is_ws c then skip_ws rest else cs
  | [] => []
  end.

Fixpoint strip_prefix (p cs : list ascii) : option (list ascii) :=
  match p, cs with
  | [], _ => Some cs
  | a :: p', c :: cs' => if Ascii.eqb a c then strip_prefix p' cs' else None
  | _ :: _, [] => None
  end.

Definition digit_val (c : ascii) : option Z :=
  let n := Z.of_N (N_of_ascii c) in
  if (48 <=? n) && (n <=? 57) then Some (n - 48) else None.

Definition hex_val (c : ascii) : option Z :=
  let n := Z.of_N (N_of_ascii c) in
  if (48 <=? n) && (n <=? 57) then Some (n - 48)
  else if (65 <=? n) && (n <=? 70) then Some (n - 55)
  else if (97 <=? n) && (n <=? 102) then Some (n - 87)
  else None.

(** Reads [[0-9]*]; the flag tells whether a digit was read. *)
Fixpoint read_digits (cs : list ascii) (acc : Z) (any : bool)
  : Z * bool * list ascii :=
  match cs with
  | c :: rest =>
      match digit_val c with
      | Some d => read_digits rest (10 * acc + d) true
      | None => (acc, any, cs)
      end
  | [] => (acc, any, cs)
  end.

Definition read_fraction (cs : list ascii) : option (bool * list ascii) :=
  match cs with
  | c :: rest =>
      if Ascii.eqb c "." then
        match read_digits rest 0 false with
        | (_, true, rest') => Some (true, rest')
        | _ => None
        end
      else Some (false, cs)
  | [] => Some (false, cs)
  end.

Definition read_exponent (cs : list ascii) : option (bool * list ascii) :=
  match cs with
  | c :: rest =>
      if Ascii.eqb c "e" || Ascii.eqb c "E" then
        let rest1 :=
          match rest with
          | s :: r => if Ascii.eqb s "+" || Ascii.eqb s "-" then r else rest
          | [] => rest
          end in
        match read_digits rest1 0 false with
        | (_, true, rest') => Some (true, rest')
        | _ => None
        end
      else Some (false, cs)
  | [] => Some (false, cs)
  end.

Definition parse_number (cs : list ascii) : option (Json * list ascii) :=
  let '(negative, cs1) :=
    match cs with
    | c :: rest => if Ascii.eqb c "-" then (true, rest) else (false, cs)
    | [] => (false, cs)
    end in
  let whole :=
    match cs1 with
    | c :: rest =>
        if Ascii.eqb c "0" then Some (0, rest)
        else match read_digits cs1 0 false with
             | (v, true, rest') => Some (v, rest')
             | _ => None
             end
    | [] => None
    end in
  match whole with
  | None => None
  | Some (v, cs2) =>
      match read_fraction cs2 with
      | None => None
      | Some (hasFraction, cs3) =>
          match read_exponent cs3 with
          | None => None
          | Some (hasExponent, cs4) =>
              if hasFraction || hasExponent then Some (JOutside, cs4)
              else Some (JNum (if negative then - v else v), cs4)
          end
      end
  end.

(** Reads a string body up to its closing quote. [acc] holds the characters
    read so far, last first; [outside] is set by text beyond ASCII. *)
Fixpoint parse_string (cs : list ascii) (acc : list ascii) (outside : bool)
  : option (option string * list ascii) :=
  match cs with
  | [] => None
  | c :: rest =>
      let n := N_of_ascii c in
      if (n =? 34)%N then
        Some (if outside then None
              else Some (string_of_list_ascii (rev acc)), rest)
      else if (n =? 92)%N then
        match rest with
        | [] => None
        | e :: rest1 =>
            let m := N_of_ascii e in
            if (m =? 34)%N || (m =? 92)%N || (m =? 47)%N
            then parse_string rest1 (e :: acc) outside
            else if (m =? 98)%N then parse_string rest1 ("008"%char :: acc) outside
            else if (m =? 102)%N then parse_string rest1 ("012"%char :: acc) outside
            else if (m =? 110)%N then parse_string rest1 ("010"%char :: acc) outside
            else if (m =? 114)%N then parse_string rest1 ("013"%char :: acc) outside
            else if (m =? 116)%N then parse_string rest1 ("009"%char :: acc) outside
            else if (m =? 117)%N then
              match rest1 with
              | h1 :: h2 :: h3 :: h4 :: rest2 =>
                  match hex_val h1, hex_val h2, hex_val h3, hex_val h4 with
                  | Some a, Some b, Some c', Some d =>
                      let v := ((a * 16 + b) * 16 + c') * 16 + d in
                      if v <? 128
                      then parse_string rest2
                             (ascii_of_N (Z.to_N v) :: acc) outside
                      else parse_string rest2 acc true
                  | _, _, _, _ => None
                  end
              | _ => None
              end
            else None
        end
      else if (n <? 32)%N then None
      else if (128 <=? n)%N then parse_string rest acc true
      else parse_string rest (c :: acc) outside
  end.

Definition object_of_members (ms : list (option string * Json)) : Json :=
  if forallb (fun m => match fst m with Some _ => true | None => false end) ms
  then JObj (fold_left
               (fun o m => match fst m with
                           | Some k => obj_set o k (snd m)
                           | None => o
                           end) ms [])
  else JOutside.

Definition head_is (c : ascii) (cs : list ascii) : option (list ascii) :=
  match cs with
  | c' :: rest => if Ascii.eqb c c' then Some rest else None
  | [] => None
  end.

Fixpoint parse_value (fuel : nat) (cs : list ascii)
  : option (Json * list ascii) :=
  match fuel with
  | O => None
  | S fuel' =>
      let cs0 := skip_ws cs in
      match strip_prefix (list_ascii_of_string "null") cs0 with
      | Some rest => Some (JNull, rest)
      | None =>
      match strip_prefix (list_ascii_of_string "true") cs0 with
      | Some rest => Some (JBool true, rest)
      | None =>
      match strip_prefix (list_ascii_of_string "false") cs0 with
      | Some rest => Some (JBool false, rest)
      | None =>
      match head_is "034" cs0 with
      | Some rest =>
          match parse_string rest [] false with
          | Some (Some s, rest') => Some (JStr s, rest')
          | Some (None, rest') => Some (JOutside, rest')
          | None => None
          end
      | None =>
      match head_is "[" cs0 with
      | Some rest =>
          match head_is "]" (skip_ws rest) with
          | Some rest' => Some (JArr [], rest')
          | None =>
              match parse_items fuel' rest with
              | Some (items, rest') => Some (JArr items, rest')
              | None => None
              end
          end
      | None =>
      match head_is "{" cs0 with
      | Some rest =>
          match head_is "}" (skip_ws rest) with
          | Some rest' => Some (JObj [], rest')
          | None =>
              match parse_members fuel' rest with
              | Some (ms, rest') => Some (object_of_members ms, rest')
              | None => None
              end
          end
      | None => parse_number cs0
      end end end end end end
  end
with parse_items (fuel : nat) (cs : list ascii)
  : option (list Json * list ascii) :=
  match fuel with
  | O => None
  | S fuel' =>
      match parse_value fuel' cs with
      | None => None
      | Some (v, rest) =>
          let rest0 := skip_ws rest in
          match head_is "," rest0 with
          | Some rest1 =>
              match parse_items fuel' rest1 with
              | Some (vs, rest2) => Some (v :: vs, rest2)
              | None => None
              end
          | None =>
              match head_is "]" rest0 with
              | Some rest1 => Some ([v], rest1)
              | None => None
              end
          end
      end
  end
with parse_members (fuel : nat) (cs : list ascii)
  : option (list (option string * Json) * list ascii) :=
  match fuel with
  | O => None
  | S fuel' =>
      match head_is "034" (skip_ws cs) with
      | None => None
      | Some rest =>
          match parse_string rest [] false with
          | None => None
          | Some (k, rest1) =>
              match head_is ":" (skip_ws rest1) with
              | None => None
              | Some rest2 =>
                  match parse_value fuel' rest2 with
                  | None => None
                  | Some (v, rest3) =>
                      let rest4 := skip_ws rest3 in
                      match head_is "," rest4 with
                      | Some rest5 =>
                          match parse_members fuel' rest5 with
                          | Some (ms, rest6) => Some ((k, v) :: ms, rest6)
                          | None => None
                          end
                      | None =>
                          match head_is "}" rest4 with
                          | Some rest5 => Some ([(k, v)], rest5)
                          | None => None
                          end
                      end
                  end
              end
          end
      end
  end.

(** The JSON value of a text, [None] where [JSON.parse] throws. *)
Definition json_read (text : string) : option Json :=
  let cs := list_ascii_of_string text in
  match parse_value (2 * List.length cs + 2) cs with
  | Some (j, rest) =>
      match skip_ws rest with
      | [] => Some j
      | _ => None
      end
  | None => None
  end.

Definition num_member (name : string) (m : string * Json) : option Z :=
  match m with
  | (k, JNum z) => if String.eqb k name then Some z else None
  | _ => None
  end.

Definition range_of_json (j : Json) : option BaselinedRange :=
  match j with
  | JObj [s; e] =>
      match num_member "startColumn" s, num_member "endColumn" e with
      | Some sc, Some ec => Some (mkBaselinedRange sc ec None)
      | _, _ => None
      end
  | JObj [s; e; n] =>
      match num_member "startColumn" s, num_member "endColumn" e,
            num_member "lineCount" n with
      | Some sc, Some ec, Some lc => Some (mkBaselinedRange sc ec (Some lc))
      | _, _, _ => None
      end
  | _ => None
  end.

Definition range_member (m : string * Json) : option BaselinedRange :=
  if String.eqb (fst m) "range" then range_of_json (snd m) else None.

Definition entry_of_json (j : Json) : option BaselinedDiagnostic :=
  match j with
  | JObj [r] =>
      match range_member r with
      | Some rg => Some (mkBaselinedDiagnostic None rg)
      | None => None
      end
  | JObj [(k, JStr c); r] =>
      if String.eqb k "code" then
        match range_member r with
        | Some rg => Some (mkBaselinedDiagnostic (Some c) rg)
        | None => None
        end
      else None
  | _ => None
  end.

Fixpoint all_some {A : Type} (l : list (option A)) : option (list A) :=
  match l with
  | [] => Some []
  | Some a :: rest =>
      match all_some rest with
      | Some r => Some (a :: r)
      | None => None
      end
  | None :: _ => None
  end.

Definition file_of_json (m : string * Json)
  : option (string * list BaselinedDiagnostic) :=
  match snd m with
  | JArr items =>
      match all_some (map entry_of_json items) with
      | Some entries => Some (fst m, entries)
      | None => None
      end
  | _ => None
  end.

(** A JSON value read at the type [BaselineFile]: exactly the members the
    interfaces declare, in the order the module writes them; any other value
    is one the records of this development cannot carry. *)
Definition baseline_of_json (j : Json) : option BaselineFile :=
  match j with
  | JObj [(k, JObj members)] =>
      if String.eqb k "files" then
        match all_some (map file_of_json members) with
        | Some fs => Some (mkBaselineFile fs)
        | None => None
        end
      else None
  | _ => None
  end.

Definition jsonParse (text : string) : ParseOutcome :=
  match json_read text with
  | None => ParseSyntaxError
  | Some j =>
      match baseline_of_json j with
      | Some b => Parsed b
      | None => ParsedUntyped
      end
  end.

(** Slash-separated paths: [posixCombinePaths "/proj" "./a.py" = "/proj/a.py"]
    and [posixRelativePath "/proj" "/proj/a.py" = Some "./a.py"]. *)
Definition dropDotSlash (p : string) : string :=
  if String.prefix "./" p then String.substring 2 (String.length p - 2) p
  else p.

Definition posixCombinePaths (rootDir : Uri) (p : string) : Uri :=
  (rootDir ++ "/" ++ dropDotSlash p)%string.

Definition posixRelativePath (rootDir child : Uri) : option string :=
  let base := (rootDir ++ "/")%string in
  if String.prefix base child
     && Nat.ltb (String.length base) (String.length child)
  then Some ("./" ++ String.substring (String.length base)
                       (String.length child - String.length base) child)%string
  else None.

Fixpoint dropLastSegment (cs : list ascii) : list ascii :=
  match cs with
  | [] => []
  | c :: rest =>
      if existsb (Ascii.eqb "/") rest then c :: dropLastSegment rest else []
  end.

Definition posixDirectory (p : Uri) : Uri :=
  string_of_list_ascii (dropLastSegment (list_ascii_of_string p)).

(** Modelled from the spec: [compareDiagnostics] of [common/diagnostic] is not
    among the sources; section 4.2 orders diagnostics by start line, start
    column and rule identifier. *)
Definition compareRules (a b : option DiagnosticRule) : Z :=
  match a, b with
  | None, None => 0
  | None, Some _ => -1
  | Some _, None => 1
  | Some x, Some y => defaultCompare x y
  end.

Definition compareByPosition (d1 d2 : Diagnostic) : Z :=
  if line (start (range d1)) <? line (start (range d2)) then -1
  else if line (start (range d2)) <? line (start (range d1)) then 1
  else if character (start (range d1)) <? character (start (range d2)) then -1
  else if character (start (range d2)) <? character (start (range d1)) then 1
  else compareRules (getRule d1) (getRule d2).

(** Modelled from the spec: [extraOptionDiagnosticRules] and
    [convertLevelToCategory] are not among the sources; the configuration
    reference lists the rules that have the extra levels "unreachable",
    "unused" and "deprecated". *)
Definition docExtraOptionDiagnosticRules
  : list (DiagnosticLevel * list DiagnosticRule) :=
  [("unreachable", ["reportUnreachable"; "reportUnusedExcept"]);
   ("unused", ["reportUnusedClass"; "reportUnusedImport"; "reportUnusedFunction";
               "reportUnusedVariable"; "reportUnusedParameter"]);
   ("deprecated", ["reportDeprecated"; "reportTypeCommentUsage"])].

Definition docConvertLevelToCategory (level : DiagnosticLevel)
  : DiagnosticCategory :=
  if String.eqb level "error" then Error
  else if String.eqb level "warning" then Warning
  else if String.eqb level "unused" then UnusedCode
  else if String.eqb level "unreachable" then UnreachableCode
  else if String.eqb level "deprecated" then Deprecated
  else Information.

(** A differ that honours [edit_script]: it follows a longest common
    subsequence and merges neighbouring changes of one kind. *)
Definition pushRemoved (e : BaselinedDiagnostic) (cs : list Change) : list Change :=
  match cs with
  | Removed v :: rest => Removed (e :: v) :: rest
  | _ => Removed [e] :: cs
  end.

Definition pushAdded (d : Diagnostic) (cs : list Change) : list Change :=
  match cs with
  | Added v :: rest => Added (d :: v) :: rest
  | _ => Added [d] :: cs
  end.

Definition pushUnchanged (d : Diagnostic) (cs : list Change) : list Change :=
  match cs with
  | Unchanged v :: rest => Unchanged (d :: v) :: rest
  | _ => Unchanged [d] :: cs
  end.

Fixpoint lcsLength (eq : BaselinedDiagnostic -> Diagnostic -> bool)
  (old : list BaselinedDiagnostic) : list Diagnostic -> nat :=
  match old with
  | [] => fun _ => O
  | e :: old' =>
      fix inner (new : list Diagnostic) : nat :=
        match new with
        | [] => O
        | d :: new' =>
            if eq e d then S (lcsLength eq old' new')
            else Nat.max (lcsLength eq old' new) (inner new')
        end
  end.

Fixpoint lcsDiff (eq : BaselinedDiagnostic -> Diagnostic -> bool)
  (old : list BaselinedDiagnostic) : list Diagnostic -> list Change :=
  match old with
  | [] => fun new => match new with [] => [] | _ => [Added new] end
  | e :: old' =>
      fix inner (new : list Diagnostic) : list Change :=
        match new with
        | [] => [Removed old]
        | d :: new' =>
            if eq e d then pushUnchanged d (lcsDiff eq old' new')
            else if Nat.leb (lcsLength eq old new') (lcsLength eq old' new)
                 then pushRemoved e (lcsDiff eq old' new)
                 else pushAdded d (inner new')
        end
  end.

(** ** A sample project

    [/proj] holds [a.py]; the baseline on disk also lists [b.py], which is no
    longer there. *)

Definition sampleRoot : Uri := "/proj".

Definition onLine (l c1 c2 : Z) : Range :=
  mkRange (mkPosition l c1) (mkPosition l c2).

Definition unboundAt (l : Z) : Diagnostic :=
  mkDiagnostic Error "x is possibly unbound" (onLine l 4 10)
    (Some "reportPossiblyUnbound") None.

Definition deprecatedCall : Diagnostic :=
  mkDiagnostic Warning "f is deprecated" (onLine 3 0 5)
    (Some "reportDeprecated") None.

Definition newError : Diagnostic :=
  mkDiagnostic Error "str is not assignable to int" (onLine 20 2 6)
    (Some "reportAssignmentType") None.

Definition unusedHint : Diagnostic :=
  mkDiagnostic UnusedCode "y is not accessed" (onLine 7 0 1) None None.

Definition tieShort : Diagnostic :=
  mkDiagnostic Error "first" (onLine 5 0 3) (Some "reportCallIssue") None.

Definition tieLong : Diagnostic :=
  mkDiagnostic Error "second" (onLine 5 0 8) (Some "reportCallIssue") None.

Definition staleError : Diagnostic :=
  mkDiagnostic Error "g is not defined" (onLine 1 0 1)
    (Some "reportUndefinedVariable") None.

Definition sampleBaseline : BaselineFile :=
  {| files :=
       [("./a.py", [toBaselinedDiagnostic deprecatedCall;
                    toBaselinedDiagnostic (unboundAt 10)]);
        ("./b.py", [toBaselinedDiagnostic staleError])] |}.

Definition sampleFs : FileSystem :=
  [("/proj/a.py", "import x");
   ("/proj/.basedpyright/baseline.json", jsonStringify sampleBaseline)].

(** The baseline an exhaustive run that reports [newError] and a plain hint for
    [a.py] leaves behind. *)
Definition sampleRun : list FileDiagnostics :=
  [mkFileDiagnostics "/proj/a.py" [newError; unusedHint]].

Definition sampleUpdated : BaselineFile :=
  {| files := [("./a.py", [toBaselinedDiagnostic newError])] |}.

Definition corruptFs : FileSystem :=
  [("/proj/.basedpyright/baseline.json", "{")].

(** A baseline whose two paths are array indices, and a project that holds
    nothing but that baseline. *)
Definition numberedBaseline : BaselineFile :=
  {| files := [("9", [toBaselinedDiagnostic staleError]);
               ("10", [toBaselinedDiagnostic newError])] |}.

Definition numberedFs : FileSystem :=
  [("/proj/.basedpyright/baseline.json", jsonStringify numberedBaseline)].


(** Modelled from the spec: [pluralize] of [common/stringUtils] is not among
    the sources; the count followed by the noun, with an [s] unless the count
    is one. *)
Definition countNoun (n : Z) (singular : string) : string :=
  (string_of_Z n ++ " "
   ++ (if (n =? 1)%Z then singular else singular ++ "s"))%string.


(** ** What [baseline.ts] imports

    The module's collaborators: path arithmetic of [Uri], the JSON functions of
    the runtime, [compareDiagnostics] and [convertLevelToCategory] of
    [common/diagnostic], [diffArrays] of the diff library and
    [extraOptionDiagnosticRules] of [common/configOptions] (each entry is a
    level name with the rules its [get()] returns). *)
Class Collaborators : Type := {
  getRelativePath : Uri -> Uri -> option string;
  combinePaths : Uri -> string -> Uri;
  getDirectory : Uri -> Uri;
  JSON_parse : string -> ParseOutcome;
  JSON_stringify : BaselineFile -> string;
  compareDiagnostics : Diagnostic -> Diagnostic -> Z;
  diffArrays :
    (BaselinedDiagnostic -> Diagnostic -> bool) ->
    list BaselinedDiagnostic -> list Diagnostic -> list Change;
  extraOptionDiagnosticRules : list (DiagnosticLevel * list DiagnosticRule);
  convertLevelToCategory : DiagnosticLevel -> DiagnosticCategory
}.

(** The reference collaborators, bundled. *)
Definition reference : Collaborators :=
  {| getRelativePath := posixRelativePath;
     combinePaths := posixCombinePaths;
     getDirectory := posixDirectory;
     JSON_parse := jsonParse;
     JSON_stringify := jsonStringify;
     compareDiagnostics := compareByPosition;
     diffArrays := lcsDiff;
     extraOptionDiagnosticRules := docExtraOptionDiagnosticRules;
     convertLevelToCategory := docConvertLevelToCategory |}.

(** ** The module *)

Section Baseline.

Context {env : Collaborators}.

Definition baselineFilePath (rootDir : Uri) : Uri :=
  combinePaths rootDir ".basedpyright/baseline.json".

(** One turn of the loop of [diagnosticsToBaseline]. *)
Definition addFileDiagnostics (rootDir : Uri)
  (baselineData : JsObject (list BaselinedDiagnostic))
  (fileWithDiagnostics : FileDiagnostics)
  : Result (JsObject (list BaselinedDiagnostic)) :=
  match getRelativePath rootDir (fileUri fileWithDiagnostics) with
  | None => Throw TypeError       (* undefined!.toString() *)
  | Some filePath =>
      let errorDiagnostics :=
        filter isErrorDiagnostic (diagnostics fileWithDiagnostics) in
      let baselineData1 :=
        if obj_has baselineData filePath then baselineData
        else obj_set baselineData filePath [] in
      match errorDiagnostics with
      | [] => Ok baselineData1
      | _ =>
          let present :=
            match obj_get baselineData1 filePath with
            | Some entries => entries
            | None => []
            end in
          Ok (obj_set baselineData1 filePath
                (present ++ map toBaselinedDiagnostic errorDiagnostics))
      end
  end.

Fixpoint diagnosticsToBaseline_loop (rootDir : Uri)
  (baselineData : JsObject (list BaselinedDiagnostic))
  (filesWithDiagnostics : list FileDiagnostics)
  : Result (JsObject (list BaselinedDiagnostic)) :=
  match filesWithDiagnostics with
  | [] => Ok baselineData
  | fileWithDiagnostics :: rest =>
      baselineData1 <- addFileDiagnostics rootDir baselineData fileWithDiagnostics ;;
      diagnosticsToBaseline_loop rootDir baselineData1 rest
  end.

Definition diagnosticsToBaseline (rootDir : Uri)
  (filesWithDiagnostics : list FileDiagnostics) : Result BaselineFile :=
  data <- diagnosticsToBaseline_loop rootDir [] filesWithDiagnostics ;;
  Ok {| files := data |}.

Definition getBaselinedErrors (fs : FileSystem) (rootDir : Uri)
  : Result BaselineFile :=
  let path := baselineFilePath rootDir in
  match readFileSync fs path with
  | None => Ok {| files := [] |}
  | Some baselineFileContents =>
      match JSON_parse baselineFileContents with
      | Parsed b => Ok b
      | ParseSyntaxError => Throw SyntaxError
      | ParsedUntyped => Throw UntypedJson
      end
  end.

(** The first loop of [writeDiagnosticsToBaselineFile]: entries of files the
    run did not report on are carried over. *)
Definition carryOver (fs : FileSystem) (rootDir : Uri) (openFilesOnly : bool)
  (previousBaseline newBaseline : JsObject (list BaselinedDiagnostic))
  : JsObject (list BaselinedDiagnostic) :=
  fold_left
    (fun newBaseline filePath =>
       if negb (obj_has newBaseline filePath)
          && (openFilesOnly || fileExists fs (combinePaths rootDir filePath))
       then match obj_get previousBaseline filePath with
            | Some entries => obj_set newBaseline filePath entries
            | None => newBaseline
            end
       else newBaseline)
    (obj_keys previousBaseline) newBaseline.

(** The second loop: the keys are visited in the order [sort()] gives them and
    files without entries are left out; [result.files] is an object, so it
    lists them as [obj_set] places them. *)
Definition sortedNonEmpty (newBaseline : JsObject (list BaselinedDiagnostic))
  : JsObject (list BaselinedDiagnostic) :=
  fold_left
    (fun result file =>
       match obj_get newBaseline file with
       | Some (e :: entries) => obj_set result file (e :: entries)
       | _ => result
       end)
    (Array_sort defaultCompare (obj_keys newBaseline)) [].

Definition writeDiagnosticsToBaselineFile (fs : FileSystem) (rootDir : Uri)
  (filesWithDiagnostics : list FileDiagnostics) (openFilesOnly : bool)
  : Result (BaselineFile * FileSystem) :=
  newBaseline <- diagnosticsToBaseline rootDir filesWithDiagnostics ;;
  previousBaseline <- getBaselinedErrors fs rootDir ;;
  let newBaseline1 :=
    carryOver fs rootDir openFilesOnly (files previousBaseline)
      (files newBaseline) in
  let result := {| files := sortedNonEmpty newBaseline1 |} in
  let baselineFile := baselineFilePath rootDir in
  let fs1 := mkdirSync fs (getDirectory baselineFile) in
  let fs2 := writeFileSync fs1 baselineFile (JSON_stringify result) in
  Ok (result, fs2).

Definition getBaselinedErrorsForFile (fs : FileSystem) (rootDir file : Uri)
  : Result (list BaselinedDiagnostic) :=
  let relativePath := getRelativePath rootDir file in
  if truthy relativePath then
    b <- getBaselinedErrors fs rootDir ;;
    match relativePath with
    | Some key =>
        match obj_get (files b) key with
        | Some entries => Ok entries
        | None => Ok []
        end
    | None => Throw TypeError
    end
  else Ok [].

(** The tier a baselined rule is shown at instead of being hidden: the name
    of the first entry of [extraOptionDiagnosticRules] that lists it. *)
Fixpoint firstExtraLevel
  (table : list (DiagnosticLevel * list DiagnosticRule))
  (diagnosticRule : DiagnosticRule) : option DiagnosticLevel :=
  match table with
  | [] => None
  | (name, rules) :: rest =>
      if existsb (String.eqb diagnosticRule) rules then Some name
      else firstExtraLevel rest diagnosticRule
  end.

(** The body of the loop over an unchanged chunk. *)
Definition markBaselined (diagnostic : Diagnostic) : Diagnostic :=
  let diagnosticRule := getRule diagnostic in
  let newDiagnostic :=
    match diagnosticRule with
    | Some r =>
        if truthy diagnosticRule then
          match firstExtraLevel extraOptionDiagnosticRules r with
          | Some name =>
              Some (setRule
                      (copy diagnostic (Some (convertLevelToCategory name))
                         (Some BaselinedWithHint)) r)
          | None => None
          end
        else None
    | None => None
    end in
  match newDiagnostic with
  | Some d => d
  | None => copy diagnostic None (Some Baselined)
  end.

(** The loop over the change objects. *)
Fixpoint applyChanges (diff : list Change) (result : list Diagnostic)
  : Result (list Diagnostic) :=
  match diff with
  | [] => Ok result
  | Removed _ :: rest => applyChanges rest result
  | Added value :: rest =>
      _ <- assert (match value with [] => false | _ => true end) ;;
      applyChanges rest (result ++ value)
  | Unchanged value :: rest =>
      applyChanges rest (result ++ map markBaselined value)
  end.

(** [diagnostics.sort] also reorders the caller's array; what the function
    returns is built from the sorted order alone. *)
Definition sortDiagnosticsAndMatchBaseline (fs : FileSystem)
  (rootDir file : Uri) (diagnostics : list Diagnostic)
  : Result (list Diagnostic) :=
  let sorted := Array_sort compareDiagnostics diagnostics in
  baselined <- getBaselinedErrorsForFile fs rootDir file ;;
  applyChanges (diffArrays comparator baselined sorted) [].

(** What the loop makes of a diagnostic: it is passed on as it is, or it was
    paired with a baseline entry and is passed on marked. *)
Definition reconciled (entries : list BaselinedDiagnostic) (d r : Diagnostic)
  : Prop :=
  r = d
  \/ ((exists e, In e entries /\ comparator e d = true) /\ r = markBaselined d).

(** For every sorted diagnostic in turn, whether [diffArrays] paired it with
    a baseline entry, that is, whether it is a matched diagnostic. *)
Definition pairedWithEntry (entries : list BaselinedDiagnostic)
  (diagnostics : list Diagnostic) : list bool :=
  pairedFlags
    (diffArrays comparator entries (Array_sort compareDiagnostics diagnostics)).

(** [diffArrays] returns a shortest edit script: no way of spelling the two
    arrays in change objects pairs more items than the one it returns. *)
Definition pairsMost (entries : list BaselinedDiagnostic)
  (diagnostics : list Diagnostic) : Prop :=
  forall script,
    edit_script comparator entries (Array_sort compareDiagnostics diagnostics)
      script ->
    (unchangedCount script
     <= unchangedCount
          (diffArrays comparator entries
             (Array_sort compareDiagnostics diagnostics)))%nat.

(** What a template literal prints for a [string | undefined]. *)
Definition templateString (s : option string) : string :=
  match s with
  | Some s' => s'
  | None => "undefined"
  end.

(** [Object.values(baseline.files).flatMap((file) => file).length] *)
Definition errorCount (baseline : BaselineFile) : Z :=
  Z.of_nat (List.length (flat_map (fun file => file) (map snd (files baseline)))).

(** [pluralize] of [common/stringUtils] is passed in. *)
Definition getBaselineSummaryMessage (pluralize : Z -> string -> string)
  (rootDir : Uri) (previousBaseline newBaseline : BaselineFile) : string :=
  let baselinedErrorCount := errorCount previousBaseline in
  let newErrorCount := errorCount newBaseline in
  let diff := newErrorCount - baselinedErrorCount in
  let message :=
    if diff =? 0 then "error count didn't change"
    else if diff >? 0 then ("went up by " ++ string_of_Z diff)%string
    else ("went down by " ++ string_of_Z (diff * -1))%string in
  ("updated "
   ++ templateString (getRelativePath rootDir (baselineFilePath rootDir))
   ++ " with " ++ pluralize newErrorCount "error"
   ++ " (" ++ message ++ ")")%string.

(** Whether a run reports on the file at the relative path [p], and the
    entries its kept diagnostics give for that path, in the order reported. *)
Definition reportsOn (rootDir : Uri) (fds : list FileDiagnostics) (p : string)
  : bool :=
  existsb
    (fun fd =>
       match getRelativePath rootDir (fileUri fd) with
       | Some q => String.eqb q p
       | None => false
       end) fds.

Definition entriesFor (rootDir : Uri) (fds : list FileDiagnostics) (p : string)
  : list BaselinedDiagnostic :=
  flat_map
    (fun fd =>
       match getRelativePath rootDir (fileUri fd) with
       | Some q =>
           if String.eqb q p
           then map toBaselinedDiagnostic
                  (filter isErrorDiagnostic (diagnostics fd))
           else []
       | None => []
       end) fds.

(** A diagnostic that reconciliation has marked. *)
Definition isMarked (d : Diagnostic) : bool :=
  match baselineStatus d with
  | Some _ => true
  | None => false
  end.


End Baseline.

(** ** Objects as dictionaries *)

Lemma obj_get_replace {V : Type} (o : JsObject V) k k' v :
  obj_get (obj_replace o k v) k'
  = if String.eqb k k'
    then match obj_get o k with Some _ => Some v | None => None end
    else obj_get o k'.
Proof.
  induction o as [|[k0 v0] o IH]; simpl.
  - now destruct (String.eqb k k').
  - destruct (String.eqb_spec k0 k) as [->|Hk]; simpl.
    + destruct (String.eqb_spec k k'); reflexivity.
    + rewrite IH. destruct (String.eqb_spec k k') as [<-|Hne]; [|reflexivity].
      destruct (String.eqb_spec k0 k); [contradiction | reflexivity].
Qed.

Lemma obj_get_insert {V : Type} (o : JsObject V) k k' v :
  obj_get o k = None ->
  obj_get (obj_insert o k v) k'
  = if String.eqb k k' then Some v else obj_get o k'.
Proof.
  induction o as [|[k0 v0] o IH]; simpl; intros Hnone.
  - reflexivity.
  - destruct (String.eqb_spec k0 k) as [->|Hk]; [discriminate|].
    destruct (comesFirst k k0); simpl.
    + reflexivity.
    + rewrite (IH Hnone).
      destruct (String.eqb_spec k k') as [<-|Hne]; [|reflexivity].
      destruct (String.eqb_spec k0 k); [contradiction | reflexivity].
Qed.

Lemma obj_get_set {V : Type} (o : JsObject V) k k' v :
  obj_get (obj_set o k v) k' = if String.eqb k k' then Some v else obj_get o k'.
Proof.
  unfold obj_set, obj_has. destruct (obj_get o k) as [v0|] eqn:E.
  - rewrite obj_get_replace, E. reflexivity.
  - now apply obj_get_insert.
Qed.

Lemma obj_get_set_eq {V : Type} (o : JsObject V) k v :
  obj_get (obj_set o k v) k = Some v.
Proof. now rewrite obj_get_set, String.eqb_refl. Qed.

Lemma obj_get_set_ne {V : Type} (o : JsObject V) k k' v :
  k <> k' -> obj_get (obj_set o k v) k' = obj_get o k'.
Proof.
  intros Hne. rewrite obj_get_set.
  destruct (String.eqb_spec k k'); [contradiction | reflexivity].
Qed.

Lemma obj_get_keys {V : Type} (o : JsObject V) k :
  obj_get o k <> None <-> In k (obj_keys o).
Proof.
  induction o as [|[k' v'] o IH]; simpl.
  - split; [congruence | tauto].
  - destruct (String.eqb_spec k' k) as [->|Hne].
    + split; [auto | congruence].
    + rewrite IH. split; [auto | intros [?|?]; [contradiction | assumption]].
Qed.

Lemma obj_get_none_keys {V : Type} (o : JsObject V) k :
  obj_get o k = None <-> ~ In k (obj_keys o).
Proof.
  rewrite <- obj_get_keys. destruct (obj_get o k); intuition congruence.
Qed.

Lemma obj_has_keys {V : Type} (o : JsObject V) k :
  obj_has o k = true <-> In k (obj_keys o).
Proof.
  rewrite <- obj_get_keys. unfold obj_has.
  destruct (obj_get o k); split; congruence.
Qed.

Lemma obj_keys_replace {V : Type} (o : JsObject V) k v :
  obj_keys (obj_replace o k v) = obj_keys o.
Proof.
  induction o as [|[k' v'] o IH]; simpl; [reflexivity|].
  destruct (String.eqb k' k); simpl; [reflexivity | now rewrite IH].
Qed.

Lemma obj_keys_insert {V : Type} (o : JsObject V) k v :
  Permutation (k :: obj_keys o) (obj_keys (obj_insert o k v)).
Proof.
  induction o as [|[k' v'] o IH]; simpl; [reflexivity|].
  destruct (comesFirst k k'); simpl; [reflexivity|].
  rewrite perm_swap. now constructor.
Qed.

Lemma obj_insert_last {V : Type} (o : JsObject V) k v :
  isArrayIndex k = false -> obj_insert o k v = o ++ [(k, v)].
Proof.
  intros Hk. induction o as [|[k' v'] o IH]; simpl; [reflexivity|].
  unfold comesFirst. rewrite Hk. simpl. now rewrite IH.
Qed.

Lemma obj_set_fresh {V : Type} (o : JsObject V) k v :
  ~ In k (obj_keys o) -> obj_set o k v = obj_insert o k v.
Proof.
  intros Hn. unfold obj_set.
  destruct (obj_has o k) eqn:E; [|reflexivity].
  apply obj_has_keys in E. contradiction.
Qed.

Lemma obj_keys_set_present {V : Type} (o : JsObject V) k v :
  In k (obj_keys o) -> obj_keys (obj_set o k v) = obj_keys o.
Proof.
  intros Hin. unfold obj_set. apply obj_has_keys in Hin. rewrite Hin.
  apply obj_keys_replace.
Qed.

Lemma obj_keys_set_NoDup {V : Type} (o : JsObject V) k v :
  NoDup (obj_keys o) -> NoDup (obj_keys (obj_set o k v)).
Proof.
  intros Hnd. destruct (in_dec string_dec k (obj_keys o)) as [Hin|Hn].
  - now rewrite obj_keys_set_present.
  - rewrite obj_set_fresh by assumption.
    eapply Permutation_NoDup; [apply obj_keys_insert|].
    now constructor.
Qed.

Lemma obj_get_In {V : Type} (o : JsObject V) k v :
  NoDup (obj_keys o) -> (obj_get o k = Some v <-> In (k, v) o).
Proof.
  induction o as [|[k' v'] o IH]; simpl; intros Hnd.
  - split; [congruence | tauto].
  - inversion Hnd as [|? ? Hnotin Hnd']; subst.
    destruct (String.eqb_spec k' k) as [->|Hne].
    + split.
      * intros [= ->]. now left.
      * intros [[= ->]|Hin]; [reflexivity|].
        exfalso. apply Hnotin. apply in_map_iff. now exists (k, v).
    + rewrite IH by assumption.
      split; [auto | intros [[= ? ?]|?]; [contradiction | assumption]].
Qed.

(** ** [Array.prototype.sort] *)

Section Sorting.

Variable A : Type.
Variable compareFn : A -> A -> Z.

Lemma sort_insert_perm x l : Permutation (sort_insert compareFn x l) (x :: l).
Proof.
  induction l as [|y ys IH]; simpl; [reflexivity|].
  destruct (compareFn x y <=? 0); [reflexivity|].
  rewrite IH. apply perm_swap.
Qed.

Lemma Array_sort_perm l : Permutation (Array_sort compareFn l) l.
Proof.
  induction l as [|x xs IH]; simpl; [reflexivity|].
  rewrite sort_insert_perm. now constructor.
Qed.

Lemma sort_insert_sorted x l :
  consistent compareFn -> StronglySorted (before compareFn) l ->
  StronglySorted (before compareFn) (sort_insert compareFn x l).
Proof.
  intros (Htot & Htrans & _) Hs. induction Hs as [|y ys Hys IH Hall]; simpl.
  - repeat constructor.
  - destruct (compareFn x y <=? 0) eqn:E.
    + apply Z.leb_le in E. constructor; [now constructor|].
      constructor; [exact E|].
      eapply Forall_impl; [|exact Hall]. intros z Hz. eapply Htrans; eauto.
    + apply Z.leb_gt in E. constructor; [exact IH|].
      eapply Permutation_Forall; [symmetry; apply sort_insert_perm|].
      constructor; [|exact Hall].
      destruct (Htot x y) as [H|H]; [unfold before in H; lia | exact H].
Qed.

Lemma Array_sort_sorted l :
  consistent compareFn -> StronglySorted (before compareFn) (Array_sort compareFn l).
Proof.
  intros Hc. induction l as [|x xs IH]; simpl; [constructor|].
  now apply sort_insert_sorted.
Qed.

(** Two sorted arrangements of the same items are equal when no two
    different items tie. *)
Lemma sorted_perm_eq l1 l2 :
  (forall a b, In a l1 -> In b l1 -> before compareFn a b -> before compareFn b a -> a = b) ->
  StronglySorted (before compareFn) l1 -> StronglySorted (before compareFn) l2 ->
  Permutation l1 l2 -> l1 = l2.
Proof.
  revert l2. induction l1 as [|a l1 IH]; intros l2 Hanti H1 H2 Hp.
  - apply Permutation_nil in Hp. now subst.
  - destruct l2 as [|b l2].
    { symmetry in Hp. apply Permutation_nil in Hp. discriminate. }
    inversion H1 as [|? ? Hs1 Ha]; subst.
    inversion H2 as [|? ? Hs2 Hb]; subst.
    assert (Hab : a = b).
    { assert (Hin_a : In a (b :: l2))
        by (eapply Permutation_in; [exact Hp | now left]).
      assert (Hin_b : In b (a :: l1))
        by (eapply Permutation_in; [symmetry; exact Hp | now left]).
      destruct Hin_a as [->|Hin_a]; [reflexivity|].
      destruct Hin_b as [->|Hin_b]; [reflexivity|].
      apply Hanti; [now left | now right | |].
      - rewrite Forall_forall in Ha. now apply Ha.
      - rewrite Forall_forall in Hb. now apply Hb. }
    subst b. f_equal. apply IH; auto.
    + intros x y Hx Hy. apply Hanti; now right.
    + eapply Permutation_cons_inv; exact Hp.
Qed.

Lemma Array_sort_perm_eq l1 l2 :
  consistent compareFn ->
  (forall a b, In a l1 -> In b l1 -> compareFn a b = 0 -> a = b) ->
  Permutation l1 l2 ->
  Array_sort compareFn l1 = Array_sort compareFn l2.
Proof.
  intros Hc Hties Hp. apply sorted_perm_eq.
  - intros a b Ha Hb Hab Hba.
    assert (Hzero : compareFn a b = 0 \/ compareFn b a = 0 \/
                    (compareFn a b < 0 /\ compareFn b a < 0))
      by (unfold before in *; lia).
    pose proof (Array_sort_perm l1) as Hp1.
    assert (Ha' : In a l1) by (eapply Permutation_in; eauto).
    assert (Hb' : In b l1) by (eapply Permutation_in; eauto).
    destruct Hzero as [Hz|[Hz|[Hlt1 Hlt2]]].
    + now apply Hties.
    + symmetry. now apply Hties.
    + destruct Hc as (_ & _ & Hsign). apply Hsign in Hlt1. lia.
  - now apply Array_sort_sorted.
  - now apply Array_sort_sorted.
  - rewrite Array_sort_perm, Hp. symmetry. apply Array_sort_perm.
Qed.

End Sorting.

(** ** Sorting file names *)

Lemma string_compare_refl (s : string) : String.compare s s = Eq.
Proof.
  induction s as [|c s IH]; simpl; [reflexivity|].
  unfold Ascii.compare. now rewrite N.compare_refl.
Qed.

Lemma string_compare_trans (a b c : string) :
  String.compare a b <> Gt -> String.compare b c <> Gt ->
  String.compare a c <> Gt.
Proof.
  revert b c. induction a as [|x a IH]; intros [|y b] [|z c]; simpl;
    try congruence.
  unfold Ascii.compare.
  destruct (N.compare_spec (N_of_ascii x) (N_of_ascii y));
    destruct (N.compare_spec (N_of_ascii y) (N_of_ascii z));
    destruct (N.compare_spec (N_of_ascii x) (N_of_ascii z));
    intros; try discriminate; try lia; try congruence; eauto.
Qed.

Lemma defaultCompare_before (a b : string) :
  before defaultCompare a b <-> String.compare a b <> Gt.
Proof.
  unfold before, defaultCompare.
  destruct (String.compare a b); split; intros; try lia; congruence.
Qed.

Lemma defaultCompare_consistent : consistent defaultCompare.
Proof.
  repeat split.
  - intros a b. rewrite !defaultCompare_before, (String.compare_antisym b a).
    destruct (String.compare a b); simpl; [left | left | right]; congruence.
  - intros a b c. rewrite !defaultCompare_before. apply string_compare_trans.
  - intros a b. unfold defaultCompare. rewrite (String.compare_antisym b a).
    destruct (String.compare a b); simpl; lia.
Qed.

Lemma sorted_keys_strict (ks : list string) :
  NoDup ks -> StronglySorted (before defaultCompare) ks ->
  StronglySorted (fun a b => String.compare a b = Lt) ks.
Proof.
  intros Hnd Hs. induction Hs as [|k ks Hs IH Hall]; constructor.
  - apply IH. now inversion Hnd.
  - inversion Hnd as [|? ? Hnotin _]; subst.
    rewrite Forall_forall in *. intros x Hx.
    specialize (Hall x Hx). apply defaultCompare_before in Hall.
    destruct (String.compare k x) eqn:E; try congruence.
    apply String.compare_eq_iff in E. subst x. contradiction.
Qed.

Lemma string_lt_trans (a b c : string) :
  String.compare a b = Lt -> String.compare b c = Lt ->
  String.compare a c = Lt.
Proof.
  intros Hab Hbc. destruct (String.compare a c) eqn:E.
  - apply String.compare_eq_iff in E. subst c.
    rewrite String.compare_antisym, Hab in Hbc. simpl in Hbc. discriminate.
  - reflexivity.
  - exfalso. apply (string_compare_trans a b c); congruence.
Qed.

(** ** The order in which an object enumerates its keys *)

Lemma indexBefore_irrefl (a : string) : indexBefore a a = false.
Proof.
  unfold indexBefore.
  now rewrite Nat.ltb_irrefl, Nat.eqb_refl, string_compare_refl.
Qed.

Lemma indexBefore_spec (a b : string) :
  indexBefore a b = true <->
  (String.length a < String.length b)%nat \/
  (String.length a = String.length b /\ String.compare a b = Lt).
Proof.
  unfold indexBefore.
  rewrite orb_true_iff, andb_true_iff, Nat.ltb_lt, Nat.eqb_eq.
  destruct (String.compare a b); intuition congruence.
Qed.

Lemma indexBefore_trans (a b c : string) :
  indexBefore a b = true -> indexBefore b c = true -> indexBefore a c = true.
Proof.
  rewrite !indexBefore_spec.
  intros [H1|[H1 L1]] [H2|[H2 L2]]; try (left; lia).
  right. split; [lia|]. now apply (string_lt_trans a b c).
Qed.

Lemma indexBefore_total (a b : string) :
  a <> b -> indexBefore a b = true \/ indexBefore b a = true.
Proof.
  intros Hne. rewrite !indexBefore_spec.
  destruct (Nat.lt_trichotomy (String.length a) (String.length b))
    as [Hlt|[Heq|Hgt]]; [now left; left | | now right; left].
  destruct (String.compare a b) eqn:E.
  - apply String.compare_eq_iff in E. contradiction.
  - left. right. now split.
  - right. right. split; [now symmetry|].
    rewrite String.compare_antisym, E. reflexivity.
Qed.

Lemma keyBefore_irrefl (a : string) : ~ keyBefore a a.
Proof.
  unfold keyBefore. destruct (isArrayIndex a).
  - now rewrite indexBefore_irrefl.
  - now rewrite string_compare_refl.
Qed.

Lemma keyBefore_trans (a b c : string) :
  keyBefore a b -> keyBefore b c -> keyBefore a c.
Proof.
  unfold keyBefore.
  destruct (isArrayIndex a), (isArrayIndex b), (isArrayIndex c);
    try tauto.
  - apply indexBefore_trans.
  - apply string_lt_trans.
Qed.

Lemma keyBefore_asym (a b : string) : keyBefore a b -> ~ keyBefore b a.
Proof.
  intros Hab Hba. apply (keyBefore_irrefl a). now apply (keyBefore_trans a b a).
Qed.

Lemma keyBefore_plain (a b : string) :
  isArrayIndex a = false -> isArrayIndex b = false ->
  keyBefore a b <-> String.compare a b = Lt.
Proof. unfold keyBefore. now intros -> ->. Qed.

Lemma keyBefore_index_first (a b : string) :
  isArrayIndex a = true -> isArrayIndex b = false -> keyBefore a b.
Proof. unfold keyBefore. now intros -> ->. Qed.

Lemma keyBefore_NoDup (ks : list string) :
  StronglySorted keyBefore ks -> NoDup ks.
Proof.
  induction 1 as [|k ks Hs IH Hall]; constructor; [|exact IH].
  intros Hin. rewrite Forall_forall in Hall.
  now apply (keyBefore_irrefl k), Hall.
Qed.

Lemma keyBefore_plain_sorted (ks : list string) :
  StronglySorted keyBefore ks ->
  (forall k, In k ks -> isArrayIndex k = false) ->
  StronglySorted (fun a b => String.compare a b = Lt) ks.
Proof.
  induction 1 as [|k ks Hs IH Hall]; intros Hplain; constructor.
  - apply IH. intros x Hx. apply Hplain. now right.
  - rewrite Forall_forall in *. intros x Hx.
    apply keyBefore_plain; [apply Hplain; now left | apply Hplain; now right |].
    now apply Hall.
Qed.

(** Creating a member keeps the enumeration order, provided a key that is not
    an array index is created after every smaller such key. *)
Lemma obj_insert_sorted {V : Type} (o : JsObject V) (k : string) (v : V) :
  StronglySorted keyBefore (obj_keys o) ->
  ~ In k (obj_keys o) ->
  (isArrayIndex k = false -> Forall (fun a => keyBefore a k) (obj_keys o)) ->
  StronglySorted keyBefore (obj_keys (obj_insert o k v)).
Proof.
  induction o as [|[k' v'] o IH]; simpl; intros Hs Hfresh Hlast.
  - repeat constructor.
  - inversion Hs as [|? ? Hs' Hall]; subst.
    assert (Hne : k' <> k) by tauto.
    destruct (comesFirst k k') eqn:E; simpl.
    + unfold comesFirst in E. apply andb_true_iff in E as [Hk E].
      assert (Hkk' : keyBefore k k').
      { unfold keyBefore. rewrite Hk.
        destruct (isArrayIndex k'); [|exact I].
        simpl in E. exact E. }
      constructor; [exact Hs|]. constructor; [exact Hkk'|].
      rewrite Forall_forall in *. intros x Hx.
      apply (keyBefore_trans k k' x); [exact Hkk' | now apply Hall].
    + constructor.
      * apply IH; [exact Hs' | tauto |].
        intros Hk. specialize (Hlast Hk). now inversion Hlast.
      * assert (Hk'k : keyBefore k' k).
        { destruct (isArrayIndex k) eqn:Hk.
          - unfold comesFirst in E. rewrite Hk in E. simpl in E.
            apply orb_false_iff in E as [Hk' E].
            apply negb_false_iff in Hk'.
            unfold keyBefore. rewrite Hk', Hk.
            destruct (indexBefore_total k' k Hne) as [H|H];
              [exact H | congruence].
          - specialize (Hlast eq_refl). now inversion Hlast. }
        rewrite Forall_forall in *. intros x Hx.
        apply (Permutation_in _ (Permutation_sym (obj_keys_insert o k v)))
          in Hx.
        destruct Hx as [<-|Hx]; [exact Hk'k | now apply Hall].
Qed.

Lemma obj_keys_set_In {V : Type} (o : JsObject V) (k k' : string) (v : V) :
  In k' (obj_keys (obj_set o k v)) <-> k' = k \/ In k' (obj_keys o).
Proof.
  destruct (in_dec string_dec k (obj_keys o)) as [Hin|Hn].
  - rewrite obj_keys_set_present by assumption.
    split; [tauto | intros [->|H]; assumption].
  - rewrite obj_set_fresh by assumption.
    split; intros H.
    + apply (Permutation_in _ (Permutation_sym (obj_keys_insert o k v))) in H.
      destruct H as [<-|H]; tauto.
    + apply (Permutation_in _ (obj_keys_insert o k v)).
      destruct H as [->|H]; [now left | now right].
Qed.

(** Two dictionaries whose keys are in enumeration order and whose lookups
    agree are the same list of members. *)
Lemma sorted_obj_ext {V : Type} (o1 o2 : JsObject V) :
  StronglySorted keyBefore (obj_keys o1) ->
  StronglySorted keyBefore (obj_keys o2) ->
  (forall k, obj_get o1 k = obj_get o2 k) -> o1 = o2.
Proof.
  revert o2. induction o1 as [|[k1 v1] o1 IH]; intros o2 H1 H2 Hext.
  - destruct o2 as [|[k2 v2] o2]; [reflexivity|].
    specialize (Hext k2). simpl in Hext.
    now rewrite String.eqb_refl in Hext.
  - destruct o2 as [|[k2 v2] o2].
    { specialize (Hext k1). simpl in Hext.
      now rewrite String.eqb_refl in Hext. }
    simpl in H1, H2.
    inversion H1 as [|? ? Hs1 Ha1]; subst.
    inversion H2 as [|? ? Hs2 Ha2]; subst.
    rewrite Forall_forall in Ha1, Ha2.
    assert (Hk : k1 = k2).
    { destruct (string_dec k1 k2) as [|Hne]; [assumption|]. exfalso.
      assert (In k1 (obj_keys o2)).
      { pose proof (Hext k1) as E. simpl in E.
        rewrite String.eqb_refl in E.
        destruct (String.eqb_spec k2 k1); [congruence|].
        apply obj_get_keys. congruence. }
      assert (In k2 (obj_keys o1)).
      { pose proof (Hext k2) as E. simpl in E.
        rewrite String.eqb_refl in E.
        destruct (String.eqb_spec k1 k2); [congruence|].
        apply obj_get_keys. congruence. }
      pose proof (Ha1 k2 ltac:(assumption)) as L1.
      pose proof (Ha2 k1 ltac:(assumption)) as L2.
      exact (keyBefore_asym _ _ L1 L2). }
    subst k2.
    assert (Hv : v1 = v2).
    { pose proof (Hext k1) as E. simpl in E.
      rewrite String.eqb_refl in E. congruence. }
    subst v2. f_equal. apply IH; [assumption | assumption |].
    intros k. pose proof (Hext k) as E. simpl in E.
    destruct (String.eqb_spec k1 k) as [Heq|Hne]; [subst k; clear E|exact E].
    assert (N1 : ~ In k1 (obj_keys o1)).
    { intros Hin. apply Ha1 in Hin. now apply keyBefore_irrefl in Hin. }
    assert (N2 : ~ In k1 (obj_keys o2)).
    { intros Hin. apply Ha2 in Hin. now apply keyBefore_irrefl in Hin. }
    apply obj_get_none_keys in N1, N2. congruence.
Qed.

(** ** Properties of the module *)

Section BaselineProperties.

Context {env : Collaborators}.

(** ** Loading the baseline *)

(** C1, as amended: loading from a root whose baseline file is missing or
    unreadable returns the empty baseline and raises nothing; when the file
    can be read the result is what [JSON.parse] makes of its text, and the
    [SyntaxError] of an unparsable text reaches the caller. *)
Theorem getBaselinedErrors_outcome (fs : FileSystem) (rootDir : Uri) :
  (readFileSync fs (baselineFilePath rootDir) = None ->
   getBaselinedErrors fs rootDir = Ok {| files := [] |})
  /\ (forall text,
        readFileSync fs (baselineFilePath rootDir) = Some text ->
        JSON_parse text = ParseSyntaxError ->
        getBaselinedErrors fs rootDir = Throw SyntaxError)
  /\ (forall text b,
        readFileSync fs (baselineFilePath rootDir) = Some text ->
        JSON_parse text = Parsed b ->
        getBaselinedErrors fs rootDir = Ok b).
Proof.
  unfold getBaselinedErrors. repeat split.
  - intros ->. reflexivity.
  - intros text -> ->. reflexivity.
  - intros text b -> ->. reflexivity.
Qed.


(** ** The match predicate *)

Lemma rule_eqb_eq (a b : option DiagnosticRule) : rule_eqb a b = true <-> a = b.
Proof.
  destruct a as [x|], b as [y|]; simpl; try (split; congruence).
  rewrite String.eqb_eq. split; congruence.
Qed.

(** C4: the comparator accepts a baseline entry and a diagnostic exactly when
    the rules are equal, the start columns are equal, the end columns are
    equal, and the entry has no [lineCount] or it equals the number of lines
    the diagnostic spans; moving the diagnostic by any number of lines leaves
    the outcome as it was, so a moved diagnostic still matches the entry that
    was written for it. *)
Theorem comparator_fingerprint (e : BaselinedDiagnostic) (d : Diagnostic) :
  (comparator e d = true <->
     code e = getRule d
     /\ startColumn (brange e) = character (start (range d))
     /\ endColumn (brange e) = character (end_ (range d))
     /\ (rangeLineCount (brange e) = None
         \/ rangeLineCount (brange e) = Some (lineCount (range d))))
  /\ (forall k, comparator e (shiftLines k d) = comparator e d)
  /\ (forall k, comparator (toBaselinedDiagnostic d) (shiftLines k d) = true).
Proof.
  assert (Hshift : forall e' k,
             comparator e' (shiftLines k d) = comparator e' d).
  { intros e' k. unfold comparator, shiftLines, lineCount, getRule. simpl.
    replace (line (end_ (range d)) + k - (line (start (range d)) + k) + 1)
      with (line (end_ (range d)) - line (start (range d)) + 1) by lia.
    reflexivity. }
  split; [|split].
  - unfold comparator. rewrite !andb_true_iff, rule_eqb_eq, !Z.eqb_eq.
    destruct (rangeLineCount (brange e)) as [n|].
    + rewrite Z.eqb_eq. intuition (try congruence).
    + intuition.
  - apply Hshift.
  - intros k. rewrite Hshift. unfold comparator, toBaselinedDiagnostic. simpl.
    rewrite !Z.eqb_refl, !andb_true_r. now apply rule_eqb_eq.
Qed.

(** ** Reconciling the diagnostics of a file with its baseline entries *)

Lemma applyChanges_acc (diff : list Change) (acc : list Diagnostic) :
  applyChanges diff acc = (r <- applyChanges diff [] ;; Ok (acc ++ r)).
Proof.
  revert acc. induction diff as [|[v|v|v] rest IH]; intros acc; simpl.
  - now rewrite app_nil_r.
  - apply IH.
  - destruct v as [|d v]; simpl; [reflexivity|].
    rewrite (IH (acc ++ d :: v)), (IH (d :: v)).
    destruct (applyChanges rest []); simpl; [|reflexivity].
    now rewrite <- app_assoc.
  - rewrite (IH (acc ++ map markBaselined v)), (IH (map markBaselined v)).
    destruct (applyChanges rest []); simpl; [|reflexivity].
    now rewrite <- app_assoc.
Qed.

Lemma reconciled_weaken (l1 l2 : list BaselinedDiagnostic) (ds rs : list Diagnostic) :
  Forall2 (reconciled l2) ds rs -> Forall2 (reconciled (l1 ++ l2)) ds rs.
Proof.
  apply Forall2_impl. intros d r [H|[(e & Hin & Hc) H]]; [now left|].
  right. split; [|exact H]. exists e. split; [|exact Hc].
  apply in_or_app. now right.
Qed.

Lemma reconciled_unchanged (o old : list BaselinedDiagnostic) (v : list Diagnostic) :
  Forall2 (fun e d => comparator e d = true) o v ->
  Forall2 (reconciled (o ++ old)) v (map markBaselined v).
Proof.
  induction 1 as [|e d o v Hc _ IH]; simpl; constructor.
  - right. split; [|reflexivity]. exists e. split; [now left | exact Hc].
  - apply (reconciled_weaken [e]). exact IH.
Qed.

Lemma applyChanges_edit_script (old : list BaselinedDiagnostic)
  (new : list Diagnostic) (diff : list Change) :
  edit_script comparator old new diff ->
  exists res, applyChanges diff [] = Ok res /\ Forall2 (reconciled old) new res.
Proof.
  induction 1 as [|v old new cs Hv _ (res & Hres & Hall)
                  |v old new cs Hv _ (res & Hres & Hall)
                  |o v old new cs Hov _ (res & Hres & Hall)]; simpl.
  - exists []. split; [reflexivity | constructor].
  - exists res. split; [exact Hres | now apply reconciled_weaken].
  - exists (v ++ res). split.
    + destruct v as [|d v]; [congruence|]. simpl.
      rewrite applyChanges_acc, Hres. reflexivity.
    + apply Forall2_app; [|exact Hall].
      clear. induction v; constructor; [now left | assumption].
  - exists (map markBaselined v ++ res). split.
    + rewrite applyChanges_acc, Hres. reflexivity.
    + apply Forall2_app.
      * now apply reconciled_unchanged.
      * now apply reconciled_weaken.
Qed.

Lemma sortDiagnosticsAndMatchBaseline_shape (fs : FileSystem)
  (rootDir file : Uri) (ds : list Diagnostic)
  (entries : list BaselinedDiagnostic) :
  getBaselinedErrorsForFile fs rootDir file = Ok entries ->
  edit_script comparator entries (Array_sort compareDiagnostics ds)
    (diffArrays comparator entries (Array_sort compareDiagnostics ds)) ->
  exists res,
    sortDiagnosticsAndMatchBaseline fs rootDir file ds = Ok res
    /\ Forall2 (reconciled entries) (Array_sort compareDiagnostics ds) res.
Proof.
  intros Hload Hdiff. unfold sortDiagnosticsAndMatchBaseline.
  rewrite Hload. simpl. now apply applyChanges_edit_script.
Qed.

Lemma firstExtraLevel_none (table : list (DiagnosticLevel * list DiagnosticRule))
  (r : DiagnosticRule) :
  (forall name rules, In (name, rules) table -> ~ In r rules) ->
  firstExtraLevel table r = None.
Proof.
  induction table as [|[name rules] table IH]; simpl; intros Hno; [reflexivity|].
  destruct (existsb (String.eqb r) rules) eqn:E.
  - apply existsb_exists in E. destruct E as (x & Hin & Hx).
    apply String.eqb_eq in Hx. subst x.
    exfalso. apply (Hno name rules); [now left | exact Hin].
  - apply IH. intros n rs Hin. apply (Hno n rs). now right.
Qed.

Lemma firstExtraLevel_first (pre post : list (DiagnosticLevel * list DiagnosticRule))
  (name : DiagnosticLevel) (rules : list DiagnosticRule) (r : DiagnosticRule) :
  In r rules ->
  (forall n rs, In (n, rs) pre -> ~ In r rs) ->
  firstExtraLevel (pre ++ (name, rules) :: post) r = Some name.
Proof.
  intros Hin. induction pre as [|[n rs] pre IH]; simpl; intros Hpre.
  - replace (existsb (String.eqb r) rules) with true; [reflexivity|].
    symmetry. apply existsb_exists. exists r. split; [exact Hin|].
    apply String.eqb_refl.
  - destruct (existsb (String.eqb r) rs) eqn:E.
    + apply existsb_exists in E. destruct E as (x & Hx & Heq).
      apply String.eqb_eq in Heq. subst x.
      exfalso. apply (Hpre n rs); [now left | exact Hx].
    + apply IH. intros n' rs' H'. apply (Hpre n' rs'). now right.
Qed.

Lemma nth_error_Forall2 {A B : Type} (R : A -> B -> Prop) (l1 : list A)
  (l2 : list B) (i : nat) (a : A) (b : B) :
  Forall2 R l1 l2 -> nth_error l1 i = Some a -> nth_error l2 i = Some b ->
  R a b.
Proof.
  intros H. revert i. induction H as [|x y l1 l2 Hxy _ IH]; intros [|i]; simpl;
    try discriminate.
  - now intros [= <-] [= <-].
  - apply IH.
Qed.

Lemma nth_error_pushed (new : list Diagnostic) (flags : list bool) (i : nat)
  (d : Diagnostic) (paired : bool) :
  nth_error new i = Some d -> nth_error flags i = Some paired ->
  nth_error
    (map (fun p : Diagnostic * bool =>
               if snd p then markBaselined (fst p) else fst p)
       (combine new flags)) i
  = Some (if paired then markBaselined d else d).
Proof.
  revert flags i. induction new as [|x new IH]; intros [|f flags] [|i]; simpl;
    try discriminate.
  - now intros [= <-] [= <-].
  - apply IH.
Qed.

Lemma pushed_chunk (b : bool) (v new : list Diagnostic) (flags : list bool) :
  map (fun p : Diagnostic * bool =>
               if snd p then markBaselined (fst p) else fst p)
    (combine (v ++ new) (map (fun _ => b) v ++ flags))
  = map (fun d => if b then markBaselined d else d) v
    ++ map (fun p : Diagnostic * bool =>
               if snd p then markBaselined (fst p) else fst p)
         (combine new flags).
Proof. induction v as [|d v IH]; simpl; [reflexivity | now rewrite IH]. Qed.

(** What the loop over the change objects returns, item by item. *)
Lemma applyChanges_positional (old : list BaselinedDiagnostic)
  (new : list Diagnostic) (diff : list Change) :
  edit_script comparator old new diff ->
  List.length (pairedFlags diff) = List.length new
  /\ applyChanges diff []
     = Ok (map (fun p : Diagnostic * bool =>
               if snd p then markBaselined (fst p) else fst p)
             (combine new (pairedFlags diff)))
  /\ Forall2
       (fun d paired =>
          paired = true -> exists e, In e old /\ comparator e d = true)
       new (pairedFlags diff).
Proof.
  induction 1 as [|v old new cs Hv _ (Hlen & Hres & Hall)
                  |v old new cs Hv _ (Hlen & Hres & Hall)
                  |o v old new cs Hov _ (Hlen & Hres & Hall)]; simpl.
  - repeat split. constructor.
  - repeat split; try assumption.
    revert Hall. apply Forall2_impl. intros d paired Hp E.
    destruct (Hp E) as (e & Hin & Hc). exists e. split; [|exact Hc].
    apply in_or_app. now right.
  - split; [rewrite !length_app, length_map; lia|]. split.
    + destruct v as [|d v]; [congruence|].
      cbn [assert bind]. rewrite applyChanges_acc, Hres. cbn [bind].
      rewrite (pushed_chunk false). now rewrite map_id.
    + apply Forall2_app; [|exact Hall].
      clear. induction v; simpl; constructor; [discriminate | assumption].
  - split; [rewrite !length_app, length_map; lia|]. split.
    + rewrite applyChanges_acc, Hres. cbn [bind].
      now rewrite (pushed_chunk true).
    + apply Forall2_app.
      * clear - Hov. induction Hov as [|e d o v Hc _ IH]; simpl; constructor.
        -- intros _. exists e. split; [now left | exact Hc].
        -- revert IH. apply Forall2_impl. intros d' paired Hp E.
           destruct (Hp E) as (e' & Hin & Hc'). exists e'.
           split; [|exact Hc']. simpl. right. exact Hin.
      * revert Hall. apply Forall2_impl. intros d paired Hp E.
        destruct (Hp E) as (e & Hin & Hc). exists e. split; [|exact Hc].
        apply in_or_app. now right.
Qed.

Lemma unchangedCount_bound (eq : BaselinedDiagnostic -> Diagnostic -> bool)
  (old : list BaselinedDiagnostic) (new : list Diagnostic)
  (diff : list Change) :
  edit_script eq old new diff ->
  (unchangedCount diff <= List.length new)%nat.
Proof.
  induction 1; simpl; rewrite ?length_app; lia.
Qed.

(** Change objects that pair as many items as the new array holds pair every
    item of it. *)
Lemma pairedFlags_all (eq : BaselinedDiagnostic -> Diagnostic -> bool)
  (old : list BaselinedDiagnostic) (new : list Diagnostic)
  (diff : list Change) :
  edit_script eq old new diff ->
  (List.length new <= unchangedCount diff)%nat ->
  pairedFlags diff = map (fun _ => true) new.
Proof.
  induction 1 as [|v old new cs Hv Hcs IH
                  |v old new cs Hv Hcs IH
                  |o v old new cs Hov Hcs IH]; simpl; intros Hle.
  - reflexivity.
  - now apply IH.
  - apply unchangedCount_bound in Hcs. rewrite length_app in Hle.
    destruct v; [congruence | simpl in Hle; lia].
  - rewrite length_app in Hle. rewrite map_app, IH by lia. reflexivity.
Qed.

Lemma pairedInOrder_script (eq : BaselinedDiagnostic -> Diagnostic -> bool)
  (old : list BaselinedDiagnostic) (new : list Diagnostic) :
  pairedInOrder eq old new ->
  exists script,
    edit_script eq old new script /\ unchangedCount script = List.length new.
Proof.
  induction 1 as [old|e old new _ (script & Hs & Hc)
                  |e d old new Hed _ (script & Hs & Hc)].
  - destruct old as [|e old].
    + exists []. split; [constructor | reflexivity].
    + exists [Removed (e :: old)]. split; [|reflexivity].
      rewrite <- (app_nil_r (e :: old)) at 1.
      apply ES_removed; [discriminate | constructor].
  - exists (Removed [e] :: script). split; [|exact Hc].
    apply (ES_removed eq [e] old new script); [discriminate | exact Hs].
  - exists (Unchanged [d] :: script). split; [|simpl; now rewrite Hc].
    apply (ES_unchanged eq [e] [d] old new script); [|exact Hs].
    repeat constructor. exact Hed.
Qed.

(** What reconciliation returns, item by item. *)
Lemma sortDiagnosticsAndMatchBaseline_positional (fs : FileSystem)
  (rootDir file : Uri) (ds : list Diagnostic)
  (entries : list BaselinedDiagnostic) :
  getBaselinedErrorsForFile fs rootDir file = Ok entries ->
  edit_script comparator entries (Array_sort compareDiagnostics ds)
    (diffArrays comparator entries (Array_sort compareDiagnostics ds)) ->
  List.length (pairedWithEntry entries ds)
  = List.length (Array_sort compareDiagnostics ds)
  /\ sortDiagnosticsAndMatchBaseline fs rootDir file ds
     = Ok (map (fun p : Diagnostic * bool =>
               if snd p then markBaselined (fst p) else fst p)
             (combine (Array_sort compareDiagnostics ds)
                (pairedWithEntry entries ds)))
  /\ Forall2
       (fun d paired =>
          paired = true -> exists e, In e entries /\ comparator e d = true)
       (Array_sort compareDiagnostics ds) (pairedWithEntry entries ds).
Proof.
  intros Hload Hdiff. unfold sortDiagnosticsAndMatchBaseline, pairedWithEntry.
  rewrite Hload. cbn [bind]. now apply applyChanges_positional.
Qed.

(** When [diffArrays] pairs as many items as can be paired and every sorted
    diagnostic can be paired in order, every diagnostic is returned marked. *)
Lemma sortDiagnosticsAndMatchBaseline_all_paired (fs : FileSystem)
  (rootDir file : Uri) (ds : list Diagnostic)
  (entries : list BaselinedDiagnostic) :
  getBaselinedErrorsForFile fs rootDir file = Ok entries ->
  edit_script comparator entries (Array_sort compareDiagnostics ds)
    (diffArrays comparator entries (Array_sort compareDiagnostics ds)) ->
  pairsMost entries ds ->
  pairedInOrder comparator entries (Array_sort compareDiagnostics ds) ->
  sortDiagnosticsAndMatchBaseline fs rootDir file ds
  = Ok (map markBaselined (Array_sort compareDiagnostics ds)).
Proof.
  intros Hload Hdiff Hmost Hpaired.
  destruct (sortDiagnosticsAndMatchBaseline_positional fs rootDir file ds
              entries Hload Hdiff) as (_ & Hres & _).
  rewrite Hres. f_equal. unfold pairedWithEntry.
  destruct (pairedInOrder_script _ _ _ Hpaired) as (script & Hs & Hc).
  rewrite (pairedFlags_all _ _ _ _ Hdiff)
    by (rewrite <- Hc; now apply Hmost).
  generalize (Array_sort compareDiagnostics ds) as l.
  induction l as [|d l IH]; simpl; [reflexivity | now rewrite IH].
Qed.

Lemma markBaselined_plain (d : Diagnostic) :
  (forall r name rules,
     getRule d = Some r ->
     In (name, rules) extraOptionDiagnosticRules -> ~ In r rules) ->
  markBaselined d
  = mkDiagnostic (category d) (message d) (range d) (rule d) (Some Baselined).
Proof.
  intros Hno. unfold markBaselined.
  destruct (getRule d) as [r|] eqn:Hr; [|reflexivity].
  rewrite firstExtraLevel_none by (intros n rs; now apply Hno).
  destruct (truthy (Some r)); reflexivity.
Qed.

Lemma markBaselined_hint (d : Diagnostic) (r : DiagnosticRule)
  (pre post : list (DiagnosticLevel * list DiagnosticRule))
  (name : DiagnosticLevel) (rules : list DiagnosticRule) :
  getRule d = Some r -> r <> "" ->
  extraOptionDiagnosticRules = pre ++ (name, rules) :: post ->
  In r rules ->
  (forall n rs, In (n, rs) pre -> ~ In r rs) ->
  markBaselined d
  = mkDiagnostic (convertLevelToCategory name) (message d) (range d)
      (Some r) (Some BaselinedWithHint).
Proof.
  intros Hr Hne Htable Hin Hpre.
  unfold markBaselined. rewrite Hr, Htable.
  rewrite (firstExtraLevel_first pre post name rules r Hin Hpre).
  simpl. apply String.eqb_neq in Hne. rewrite Hne. reflexivity.
Qed.

(** C2, as amended: the returned list holds every current diagnostic once, in
    sorted order, and nothing else, so baseline entries that matched nothing
    leave no trace.  Item by item: the diagnostic at a position is returned at
    that position, marked when [diffArrays] paired it with a baseline entry
    (a matched diagnostic, for which some entry passes the comparator) and
    as it was otherwise; a matched diagnostic whose rule has no hint tier is
    returned with its category, message, range and rule and the status
    'baselined', and with an error, warning or information category it
    passes the filter that builds the next baseline; a diagnostic that no
    entry matches is returned unchanged.  When [diffArrays] pairs as many
    items as can be paired and every diagnostic has an entry of its own, in
    order, every diagnostic is returned marked. *)
Theorem reconcile_visible (fs : FileSystem) (rootDir file : Uri)
  (ds : list Diagnostic) (entries : list BaselinedDiagnostic) :
  getBaselinedErrorsForFile fs rootDir file = Ok entries ->
  edit_script comparator entries (Array_sort compareDiagnostics ds)
    (diffArrays comparator entries (Array_sort compareDiagnostics ds)) ->
  exists res,
    sortDiagnosticsAndMatchBaseline fs rootDir file ds = Ok res
    /\ Forall2
         (fun d r =>
            r = d
            \/ ((exists e, In e entries /\ comparator e d = true)
                /\ r = markBaselined d))
         (Array_sort compareDiagnostics ds) res
    /\ (forall d,
          (forall r name rules,
             getRule d = Some r ->
             In (name, rules) extraOptionDiagnosticRules -> ~ In r rules) ->
          markBaselined d
          = mkDiagnostic (category d) (message d) (range d) (rule d)
              (Some Baselined)
          /\ (category d = Error \/ category d = Warning
              \/ category d = Information ->
              isErrorDiagnostic (markBaselined d) = true))
    /\ List.length (pairedWithEntry entries ds)
       = List.length (Array_sort compareDiagnostics ds)
    /\ (forall i d paired,
          nth_error (Array_sort compareDiagnostics ds) i = Some d ->
          nth_error (pairedWithEntry entries ds) i = Some paired ->
          nth_error res i = Some (if paired then markBaselined d else d)
          /\ (paired = true ->
              exists e, In e entries /\ comparator e d = true))
    /\ (forall i d,
          nth_error (Array_sort compareDiagnostics ds) i = Some d ->
          nth_error (pairedWithEntry entries ds) i = Some true ->
          (forall r name rules,
             getRule d = Some r ->
             In (name, rules) extraOptionDiagnosticRules -> ~ In r rules) ->
          nth_error res i
          = Some (mkDiagnostic (category d) (message d) (range d) (rule d)
                    (Some Baselined))
          /\ (category d = Error \/ category d = Warning
              \/ category d = Information ->
              exists r, nth_error res i = Some r
                        /\ isErrorDiagnostic r = true))
    /\ (forall i d,
          nth_error (Array_sort compareDiagnostics ds) i = Some d ->
          (forall e, In e entries -> comparator e d = false) ->
          nth_error res i = Some d)
    /\ (pairsMost entries ds ->
        pairedInOrder comparator entries (Array_sort compareDiagnostics ds) ->
        res = map markBaselined (Array_sort compareDiagnostics ds)).
Proof.
  intros Hload Hdiff.
  destruct (sortDiagnosticsAndMatchBaseline_shape fs rootDir file ds entries
              Hload Hdiff) as (res & Hres & Hall).
  destruct (sortDiagnosticsAndMatchBaseline_positional fs rootDir file ds
              entries Hload Hdiff) as (Hlen & Hpos & Hsound).
  assert (Hitem : forall i d paired,
             nth_error (Array_sort compareDiagnostics ds) i = Some d ->
             nth_error (pairedWithEntry entries ds) i = Some paired ->
             nth_error res i = Some (if paired then markBaselined d else d)).
  { intros i d paired Hd Hp. rewrite Hres in Hpos. injection Hpos as ->.
    now apply nth_error_pushed. }
  assert (Hplain : forall d,
             category d = Error \/ category d = Warning
             \/ category d = Information ->
             isErrorDiagnostic
               (mkDiagnostic (category d) (message d) (range d) (rule d)
                  (Some Baselined)) = true).
  { intros d. unfold isErrorDiagnostic. simpl.
    intros [-> | [-> | ->]]; reflexivity. }
  exists res. split; [exact Hres|]. split; [exact Hall|].
  split; [|split; [exact Hlen|split; [|split; [|split]]]].
  - intros d Hno. rewrite (markBaselined_plain d Hno).
    split; [reflexivity | apply Hplain].
  - intros i d paired Hd Hp. split; [now apply Hitem|].
    exact (nth_error_Forall2 _ _ _ i d paired Hsound Hd Hp).
  - intros i d Hd Hp Hno.
    pose proof (Hitem i d true Hd Hp) as Hr. simpl in Hr.
    rewrite (markBaselined_plain d Hno) in Hr.
    split; [exact Hr|]. intros Hcat. eexists. split; [exact Hr|].
    now apply Hplain.
  - intros i d Hd Hnone.
    destruct (nth_error (pairedWithEntry entries ds) i) as [paired|] eqn:Hp.
    + destruct paired; [|now apply (Hitem i d false)].
      destruct (nth_error_Forall2 _ _ _ i d true Hsound Hd Hp eq_refl)
        as (e & Hin & Hc).
      rewrite (Hnone e Hin) in Hc. discriminate.
    + apply nth_error_None in Hp.
      assert (Hlt : (i < List.length (Array_sort compareDiagnostics ds))%nat)
        by (apply nth_error_Some; congruence).
      lia.
  - intros Hmost Hpaired.
    pose proof (sortDiagnosticsAndMatchBaseline_all_paired fs rootDir file ds
                  entries Hload Hdiff Hmost Hpaired) as Hmarked.
    congruence.
Qed.

(** C5: a matched diagnostic, one that [diffArrays] paired with a baseline
    entry, whose rule is listed by one or more entries of
    [extraOptionDiagnosticRules] is returned at its position with the
    category of the first entry that lists its rule and the status
    'baselined with hint'; the returned list has as many items as there are
    diagnostics, each at the position of the diagnostic it was made from, so
    none is repeated and none is demoted twice.  When [diffArrays] pairs as
    many items as can be paired and every diagnostic has an entry of its own,
    in order, every diagnostic with such a rule is returned demoted. *)
Theorem reconcile_hint_tier (fs : FileSystem) (rootDir file : Uri)
  (ds : list Diagnostic) (entries : list BaselinedDiagnostic) :
  getBaselinedErrorsForFile fs rootDir file = Ok entries ->
  edit_script comparator entries (Array_sort compareDiagnostics ds)
    (diffArrays comparator entries (Array_sort compareDiagnostics ds)) ->
  exists res,
    sortDiagnosticsAndMatchBaseline fs rootDir file ds = Ok res
    /\ Forall2
         (fun d r =>
            r = d
            \/ ((exists e, In e entries /\ comparator e d = true)
                /\ r = markBaselined d))
         (Array_sort compareDiagnostics ds) res
    /\ (forall d r pre name rules post,
          getRule d = Some r -> r <> "" ->
          extraOptionDiagnosticRules = pre ++ (name, rules) :: post ->
          In r rules ->
          (forall n rs, In (n, rs) pre -> ~ In r rs) ->
          markBaselined d
          = mkDiagnostic (convertLevelToCategory name) (message d) (range d)
              (Some r) (Some BaselinedWithHint))
    /\ List.length res = List.length ds
    /\ (forall i d paired,
          nth_error (Array_sort compareDiagnostics ds) i = Some d ->
          nth_error (pairedWithEntry entries ds) i = Some paired ->
          nth_error res i = Some (if paired then markBaselined d else d))
    /\ (forall i d r pre name rules post,
          nth_error (Array_sort compareDiagnostics ds) i = Some d ->
          nth_error (pairedWithEntry entries ds) i = Some true ->
          getRule d = Some r -> r <> "" ->
          extraOptionDiagnosticRules = pre ++ (name, rules) :: post ->
          In r rules ->
          (forall n rs, In (n, rs) pre -> ~ In r rs) ->
          nth_error res i
          = Some (mkDiagnostic (convertLevelToCategory name) (message d)
                    (range d) (Some r) (Some BaselinedWithHint)))
    /\ (pairsMost entries ds ->
        pairedInOrder comparator entries (Array_sort compareDiagnostics ds) ->
        forall i d r pre name rules post,
          nth_error (Array_sort compareDiagnostics ds) i = Some d ->
          getRule d = Some r -> r <> "" ->
          extraOptionDiagnosticRules = pre ++ (name, rules) :: post ->
          In r rules ->
          (forall n rs, In (n, rs) pre -> ~ In r rs) ->
          nth_error res i
          = Some (mkDiagnostic (convertLevelToCategory name) (message d)
                    (range d) (Some r) (Some BaselinedWithHint))).
Proof.
  intros Hload Hdiff.
  destruct (sortDiagnosticsAndMatchBaseline_shape fs rootDir file ds entries
              Hload Hdiff) as (res & Hres & Hall).
  destruct (sortDiagnosticsAndMatchBaseline_positional fs rootDir file ds
              entries Hload Hdiff) as (Hlen & Hpos & Hsound).
  assert (Hitem : forall i d paired,
             nth_error (Array_sort compareDiagnostics ds) i = Some d ->
             nth_error (pairedWithEntry entries ds) i = Some paired ->
             nth_error res i = Some (if paired then markBaselined d else d)).
  { intros i d paired Hd Hp. rewrite Hres in Hpos. injection Hpos as ->.
    now apply nth_error_pushed. }
  exists res. split; [exact Hres|]. split; [exact Hall|].
  split; [|split; [|split; [exact Hitem|split]]].
  - intros d r pre name rules post. apply markBaselined_hint.
  - apply Forall2_length in Hall. rewrite <- Hall.
    apply Permutation_length, Array_sort_perm.
  - intros i d r pre name rules post Hd Hp Hr Hne Htable Hin Hpre.
    rewrite (Hitem i d true Hd Hp).
    now rewrite (markBaselined_hint d r pre post name rules).
  - intros Hmost Hpaired i d r pre name rules post Hd Hr Hne Htable Hin Hpre.
    pose proof (sortDiagnosticsAndMatchBaseline_all_paired fs rootDir file ds
                  entries Hload Hdiff Hmost Hpaired) as Hmarked.
    rewrite Hres in Hmarked. injection Hmarked as ->.
    rewrite nth_error_map, Hd. simpl.
    now rewrite (markBaselined_hint d r pre post name rules).
Qed.

(** C8, as amended: when the comparison of diagnostics is consistent and no
    two different diagnostics of the input compare as equal, any two orders
    of the same diagnostics give the same outcome, and so the same entries
    for the next baseline. *)
Theorem reconcile_order_independent (fs : FileSystem) (rootDir file : Uri)
  (l1 l2 : list Diagnostic) :
  consistent compareDiagnostics ->
  (forall a b, In a l1 -> In b l1 -> compareDiagnostics a b = 0 -> a = b) ->
  Permutation l1 l2 ->
  sortDiagnosticsAndMatchBaseline fs rootDir file l1
  = sortDiagnosticsAndMatchBaseline fs rootDir file l2
  /\ (forall res1 res2,
        sortDiagnosticsAndMatchBaseline fs rootDir file l1 = Ok res1 ->
        sortDiagnosticsAndMatchBaseline fs rootDir file l2 = Ok res2 ->
        diagnosticsToBaseline rootDir [mkFileDiagnostics file res1]
        = diagnosticsToBaseline rootDir [mkFileDiagnostics file res2]).
Proof.
  intros Hc Hties Hp.
  assert (Heq : sortDiagnosticsAndMatchBaseline fs rootDir file l1
                = sortDiagnosticsAndMatchBaseline fs rootDir file l2).
  { unfold sortDiagnosticsAndMatchBaseline.
    now rewrite (Array_sort_perm_eq _ compareDiagnostics l1 l2 Hc Hties Hp). }
  split; [exact Heq|].
  intros res1 res2 H1 H2. rewrite Heq, H2 in H1. now inversion H1.
Qed.

(** ** Building a baseline from diagnostics *)

Lemma isErrorDiagnostic_iff (d : Diagnostic) :
  isErrorDiagnostic d = true <->
  baselineStatus d = Some BaselinedWithHint
  \/ (category d <> Deprecated /\ category d <> UnreachableCode
      /\ category d <> UnusedCode).
Proof.
  unfold isErrorDiagnostic. rewrite orb_true_iff.
  destruct (category d), (baselineStatus d) as [[|]|]; simpl;
    intuition congruence.
Qed.

Lemma addFileDiagnostics_ok (rootDir : Uri)
  (acc : JsObject (list BaselinedDiagnostic)) (fd : FileDiagnostics)
  (filePath : string) :
  getRelativePath rootDir (fileUri fd) = Some filePath ->
  exists acc',
    addFileDiagnostics rootDir acc fd = Ok acc'
    /\ (NoDup (obj_keys acc) -> NoDup (obj_keys acc'))
    /\ (forall p,
          obj_get acc' p
          = if String.eqb filePath p
            then Some (match obj_get acc p with Some v => v | None => [] end
                       ++ map toBaselinedDiagnostic
                            (filter isErrorDiagnostic (diagnostics fd)))
            else obj_get acc p).
Proof.
  intros Hrel. unfold addFileDiagnostics. rewrite Hrel.
  set (news := filter isErrorDiagnostic (diagnostics fd)).
  set (acc1 := if obj_has acc filePath then acc else obj_set acc filePath []).
  assert (Hacc1 : forall p,
             obj_get acc1 p
             = if String.eqb filePath p
               then Some (match obj_get acc p with Some v => v | None => [] end)
               else obj_get acc p).
  { intros p. unfold acc1, obj_has.
    destruct (obj_get acc filePath) as [v|] eqn:E.
    - destruct (String.eqb_spec filePath p) as [<-|]; [|reflexivity].
      now rewrite E.
    - rewrite obj_get_set.
      destruct (String.eqb_spec filePath p) as [<-|]; [|reflexivity].
      now rewrite E. }
  assert (Hnd1 : NoDup (obj_keys acc) -> NoDup (obj_keys acc1)).
  { unfold acc1. destruct (obj_has acc filePath); [auto|].
    apply obj_keys_set_NoDup. }
  destruct news as [|d news'] eqn:Hnews.
  - exists acc1. split; [reflexivity|]. split; [exact Hnd1|].
    intros p. rewrite Hacc1. simpl. now rewrite app_nil_r.
  - eexists. split; [reflexivity|]. split.
    + intros Hnd. apply obj_keys_set_NoDup. auto.
    + intros p. rewrite obj_get_set.
      destruct (String.eqb_spec filePath p) as [<-|Hne].
      * rewrite Hacc1, String.eqb_refl. reflexivity.
      * rewrite Hacc1. destruct (String.eqb_spec filePath p); [contradiction|].
        reflexivity.
Qed.

Lemma diagnosticsToBaseline_loop_ok (rootDir : Uri) (fds : list FileDiagnostics) :
  (forall fd, In fd fds -> getRelativePath rootDir (fileUri fd) <> None) ->
  forall acc, exists b, diagnosticsToBaseline_loop rootDir acc fds = Ok b.
Proof.
  induction fds as [|fd fds IH]; intros Hin acc; simpl.
  - now exists acc.
  - destruct (getRelativePath rootDir (fileUri fd)) as [q|] eqn:Hrel.
    + destruct (addFileDiagnostics_ok rootDir acc fd q Hrel) as (acc' & -> & _).
      simpl. apply IH. intros fd' H'. apply Hin. now right.
    + exfalso. apply (Hin fd); [now left | exact Hrel].
Qed.

Lemma diagnosticsToBaseline_loop_NoDup (rootDir : Uri)
  (fds : list FileDiagnostics) :
  forall acc b,
    diagnosticsToBaseline_loop rootDir acc fds = Ok b ->
    NoDup (obj_keys acc) -> NoDup (obj_keys b).
Proof.
  induction fds as [|fd fds IH]; intros acc b; simpl.
  - now intros [= ->].
  - destruct (getRelativePath rootDir (fileUri fd)) as [q|] eqn:Hrel.
    + destruct (addFileDiagnostics_ok rootDir acc fd q Hrel)
        as (acc' & -> & Hnd & _).
      simpl. intros Hloop Hacc. eapply IH; eauto.
    + unfold addFileDiagnostics. rewrite Hrel. discriminate.
Qed.

Lemma diagnosticsToBaseline_loop_origin (rootDir : Uri)
  (fds : list FileDiagnostics) :
  forall acc b,
    diagnosticsToBaseline_loop rootDir acc fds = Ok b ->
    forall p entries e,
      obj_get b p = Some entries -> In e entries ->
      (exists entries0, obj_get acc p = Some entries0 /\ In e entries0)
      \/ (exists fd d,
            In fd fds /\ getRelativePath rootDir (fileUri fd) = Some p
            /\ In d (diagnostics fd) /\ isErrorDiagnostic d = true
            /\ e = toBaselinedDiagnostic d).
Proof.
  induction fds as [|fd fds IH]; intros acc b; simpl.
  - intros [= ->] p entries e Hget Hin. left. now exists entries.
  - destruct (getRelativePath rootDir (fileUri fd)) as [q|] eqn:Hrel.
    2:{ unfold addFileDiagnostics. rewrite Hrel. discriminate. }
    destruct (addFileDiagnostics_ok rootDir acc fd q Hrel)
      as (acc' & -> & _ & Hget'). simpl.
    intros Hloop p entries e Hget Hin.
    destruct (IH acc' b Hloop p entries e Hget Hin)
      as [(entries0 & H0 & Hin0) | (fd' & d & Hfd & Hp & Hd & Herr & He)].
    + rewrite Hget' in H0.
      destruct (String.eqb_spec q p) as [->|Hne].
      * injection H0 as <-. apply in_app_or in Hin0.
        destruct Hin0 as [Hold | Hnew].
        -- left. destruct (obj_get acc p) as [v|]; [|contradiction].
           now exists v.
        -- right. apply in_map_iff in Hnew. destruct Hnew as (d & <- & Hd).
           apply filter_In in Hd. destruct Hd as [Hd Herr].
           exists fd, d. repeat split; auto.
      * left. now exists entries0.
    + right. exists fd', d. repeat split; auto.
Qed.

Lemma entryCount_replace (o : JsObject (list BaselinedDiagnostic)) (k : string)
  (v old : list BaselinedDiagnostic) :
  obj_get o k = Some old ->
  (List.length (List.concat (map snd (obj_replace o k v))) + List.length old
   = List.length (List.concat (map snd o)) + List.length v)%nat.
Proof.
  induction o as [|[k' v'] o IH]; simpl; [discriminate|].
  destruct (String.eqb k' k); simpl; rewrite !length_app.
  - intros [= ->]. lia.
  - intros H. specialize (IH H). lia.
Qed.

Lemma entryCount_insert (o : JsObject (list BaselinedDiagnostic)) (k : string)
  (v : list BaselinedDiagnostic) :
  List.length (List.concat (map snd (obj_insert o k v)))
  = (List.length (List.concat (map snd o)) + List.length v)%nat.
Proof.
  induction o as [|[k' v'] o IH]; simpl.
  - rewrite app_nil_r. lia.
  - destruct (comesFirst k k'); simpl; rewrite !length_app; lia.
Qed.

Lemma entryCount_set (o : JsObject (list BaselinedDiagnostic)) (k : string)
  (v : list BaselinedDiagnostic) :
  (List.length (List.concat (map snd (obj_set o k v)))
   + List.length (match obj_get o k with Some old => old | None => [] end)
   = List.length (List.concat (map snd o)) + List.length v)%nat.
Proof.
  unfold obj_set, obj_has. destruct (obj_get o k) as [old|] eqn:E.
  - now apply entryCount_replace.
  - rewrite entryCount_insert. simpl. lia.
Qed.

Lemma diagnosticsToBaseline_loop_count (rootDir : Uri)
  (fds : list FileDiagnostics) :
  forall acc b,
    diagnosticsToBaseline_loop rootDir acc fds = Ok b ->
    List.length (List.concat (map snd b))
    = (List.length (List.concat (map snd acc))
       + List.length (filter isErrorDiagnostic (flat_map diagnostics fds)))%nat.
Proof.
  induction fds as [|fd fds IH]; intros acc b; simpl.
  - intros [= ->]. lia.
  - unfold addFileDiagnostics.
    destruct (getRelativePath rootDir (fileUri fd)) as [q|]; [|discriminate].
    set (acc1 := if obj_has acc q then acc else obj_set acc q []).
    assert (H1 : List.length (List.concat (map snd acc1))
                 = List.length (List.concat (map snd acc))).
    { unfold acc1, obj_has. pose proof (entryCount_set acc q []) as E.
      destruct (obj_get acc q); [reflexivity|]. simpl in E. lia. }
    rewrite filter_app, length_app.
    destruct (filter isErrorDiagnostic (diagnostics fd)) as [|d news] eqn:Hn;
      simpl; intros Hloop; apply IH in Hloop; rewrite Hloop.
    + lia.
    + match goal with
      | |- context [obj_set acc1 q ?v] =>
          pose proof (entryCount_set acc1 q v) as E
      end.
      destruct (obj_get acc1 q) as [old|];
        simpl in E |- *; rewrite ?length_app in E; simpl in E;
        rewrite ?length_map in E; lia.
Qed.


Lemma diagnosticsToBaseline_ok (rootDir : Uri) (fds : list FileDiagnostics) :
  (forall fd, In fd fds -> getRelativePath rootDir (fileUri fd) <> None) ->
  exists b, diagnosticsToBaseline rootDir fds = Ok b.
Proof.
  intros Hin. unfold diagnosticsToBaseline.
  destruct (diagnosticsToBaseline_loop_ok rootDir fds Hin []) as (data & ->).
  simpl. now eexists.
Qed.


(** C9: the baseline built from diagnostics holds, for every file path, only
    entries that come from a diagnostic of that file which is either marked
    'baselined with hint' or has a category other than Deprecated,
    UnreachableCode and UnusedCode; it holds as many entries as there are such
    diagnostics, so a plain hint never adds one. *)
Theorem diagnosticsToBaseline_no_plain_hints (rootDir : Uri)
  (fds : list FileDiagnostics) :
  (forall fd, In fd fds -> getRelativePath rootDir (fileUri fd) <> None) ->
  exists b,
    diagnosticsToBaseline rootDir fds = Ok b
    /\ (forall p entries e,
          obj_get (files b) p = Some entries -> In e entries ->
          exists fd d,
            In fd fds /\ getRelativePath rootDir (fileUri fd) = Some p
            /\ In d (diagnostics fd) /\ e = toBaselinedDiagnostic d
            /\ (baselineStatus d = Some BaselinedWithHint
                \/ (category d <> Deprecated /\ category d <> UnreachableCode
                    /\ category d <> UnusedCode)))
    /\ List.length (List.concat (map snd (files b)))
       = List.length
           (filter
              (fun d =>
                 match baselineStatus d, category d with
                 | Some BaselinedWithHint, _ => true
                 | _, (Deprecated | UnreachableCode | UnusedCode) => false
                 | _, _ => true
                 end)
              (flat_map diagnostics fds)).
Proof.
  intros Hin. unfold diagnosticsToBaseline.
  destruct (diagnosticsToBaseline_loop_ok rootDir fds Hin []) as (data & Hloop).
  rewrite Hloop. simpl. eexists. split; [reflexivity|]. simpl. split.
  - intros p entries e Hget He.
    destruct (diagnosticsToBaseline_loop_origin rootDir fds [] data Hloop
                p entries e Hget He)
      as [(entries0 & H0 & _) | (fd & d & Hfd & Hp & Hd & Herr & Heq)].
    + discriminate.
    + exists fd, d. apply isErrorDiagnostic_iff in Herr. repeat split; auto.
  - rewrite (diagnosticsToBaseline_loop_count rootDir fds [] data Hloop).
    simpl. f_equal. apply filter_ext. intros d. unfold isErrorDiagnostic.
    destruct (category d), (baselineStatus d) as [[|]|]; reflexivity.
Qed.

(** ** Writing the baseline file *)

Lemma existsb_keys {V : Type} (o : JsObject V) (k : string) :
  existsb (String.eqb k) (obj_keys o)
  = match obj_get o k with Some _ => true | None => false end.
Proof.
  induction o as [|[k' v'] o IH]; simpl; [reflexivity|].
  rewrite (String.eqb_sym k k'). destruct (String.eqb k' k); simpl; auto.
Qed.

Lemma carryOver_fold_get (fs : FileSystem) (rootDir : Uri) (openFilesOnly : bool)
  (previousBaseline : JsObject (list BaselinedDiagnostic)) (ks : list string) :
  forall (acc : JsObject (list BaselinedDiagnostic)) (k : string),
    obj_get
      (fold_left
         (fun newBaseline filePath =>
            if negb (obj_has newBaseline filePath)
               && (openFilesOnly
                   || fileExists fs (combinePaths rootDir filePath))
            then match obj_get previousBaseline filePath with
                 | Some entries => obj_set newBaseline filePath entries
                 | None => newBaseline
                 end
            else newBaseline) ks acc) k
    = match obj_get acc k with
      | Some v => Some v
      | None =>
          if existsb (String.eqb k) ks
             && (openFilesOnly || fileExists fs (combinePaths rootDir k))
          then obj_get previousBaseline k
          else None
      end.
Proof.
  induction ks as [|a ks IH]; intros acc k; simpl.
  - now destruct (obj_get acc k).
  - rewrite IH. unfold obj_has.
    destruct (String.eqb_spec k a) as [->|Hne]; simpl.
    + destruct (obj_get acc a) as [v|] eqn:Ea; simpl; [now rewrite Ea|].
      destruct (openFilesOnly || fileExists fs (combinePaths rootDir a));
        simpl.
      * destruct (obj_get previousBaseline a) as [e|] eqn:Ep.
        -- now rewrite obj_get_set_eq.
        -- rewrite Ea. now destruct (existsb (String.eqb a) ks).
      * rewrite Ea. now rewrite andb_false_r.
    + assert (Hsame :
                obj_get
                  (if negb match obj_get acc a with
                           | Some _ => true
                           | None => false
                           end
                      && (openFilesOnly
                          || fileExists fs (combinePaths rootDir a))
                   then match obj_get previousBaseline a with
                        | Some entries => obj_set acc a entries
                        | None => acc
                        end
                   else acc) k = obj_get acc k).
      { destruct (negb _ && _); [|reflexivity].
        destruct (obj_get previousBaseline a); [|reflexivity].
        apply obj_get_set_ne. congruence. }
      now rewrite Hsame.
Qed.

Lemma carryOver_get (fs : FileSystem) (rootDir : Uri) (openFilesOnly : bool)
  (previousBaseline newBaseline : JsObject (list BaselinedDiagnostic))
  (k : string) :
  obj_get (carryOver fs rootDir openFilesOnly previousBaseline newBaseline) k
  = match obj_get newBaseline k with
    | Some v => Some v
    | None =>
        if openFilesOnly || fileExists fs (combinePaths rootDir k)
        then obj_get previousBaseline k
        else None
    end.
Proof.
  unfold carryOver. rewrite carryOver_fold_get, existsb_keys.
  destruct (obj_get newBaseline k); [reflexivity|].
  destruct (obj_get previousBaseline k); simpl; [reflexivity|].
  now destruct (openFilesOnly || _).
Qed.

Lemma carryOver_NoDup (fs : FileSystem) (rootDir : Uri) (openFilesOnly : bool)
  (previousBaseline newBaseline : JsObject (list BaselinedDiagnostic)) :
  NoDup (obj_keys newBaseline) ->
  NoDup (obj_keys
           (carryOver fs rootDir openFilesOnly previousBaseline newBaseline)).
Proof.
  unfold carryOver. generalize (obj_keys previousBaseline) as ks.
  intros ks. revert newBaseline.
  induction ks as [|a ks IH]; intros acc Hnd; simpl; [exact Hnd|].
  apply IH. destruct (negb _ && _); [|exact Hnd].
  destruct (obj_get previousBaseline a); [|exact Hnd].
  now apply obj_keys_set_NoDup.
Qed.

Lemma existsb_perm (k : string) (l1 l2 : list string) :
  Permutation l1 l2 ->
  existsb (String.eqb k) l1 = existsb (String.eqb k) l2.
Proof.
  induction 1; simpl; try congruence.
  now destruct (String.eqb k x), (String.eqb k y).
Qed.

(** A lookup in the object built by the sorting loop. *)
Lemma sortedNonEmpty_fold_get
  (newBaseline : JsObject (list BaselinedDiagnostic)) (ks : list string)
  (k : string) :
  forall acc,
    obj_get
      (fold_left
         (fun result file =>
            match obj_get newBaseline file with
            | Some (e :: entries) => obj_set result file (e :: entries)
            | _ => result
            end) ks acc) k
    = if existsb (String.eqb k) ks
      then match obj_get newBaseline k with
           | Some (e :: entries) => Some (e :: entries)
           | _ => obj_get acc k
           end
      else obj_get acc k.
Proof.
  induction ks as [|a ks IH]; intros acc; simpl; [reflexivity|].
  rewrite IH. destruct (String.eqb_spec k a) as [->|Hne]; simpl.
  - destruct (obj_get newBaseline a) as [[|e entries]|] eqn:E;
      try (now destruct (existsb _ ks)).
    rewrite obj_get_set_eq. now destruct (existsb _ ks).
  - assert (Hsame : obj_get
                      match obj_get newBaseline a with
                      | Some (e :: entries) => obj_set acc a (e :: entries)
                      | _ => acc
                      end k = obj_get acc k).
    { destruct (obj_get newBaseline a) as [[|e entries]|]; try reflexivity.
      apply obj_get_set_ne. congruence. }
    now rewrite Hsame.
Qed.

Lemma sortedNonEmpty_get (newBaseline : JsObject (list BaselinedDiagnostic))
  (k : string) :
  NoDup (obj_keys newBaseline) ->
  obj_get (sortedNonEmpty newBaseline) k
  = match obj_get newBaseline k with
    | Some (e :: entries) => Some (e :: entries)
    | _ => None
    end.
Proof.
  intros Hnd. unfold sortedNonEmpty. rewrite sortedNonEmpty_fold_get.
  rewrite (existsb_perm k _ _ (Array_sort_perm _ defaultCompare _)).
  rewrite existsb_keys. simpl.
  now destruct (obj_get newBaseline k) as [[|e entries]|].
Qed.

(** The sorting loop keeps the object's keys in enumeration order: it creates
    them in ascending order of their text. *)
Lemma sortedNonEmpty_fold_sorted
  (newBaseline : JsObject (list BaselinedDiagnostic)) (ks : list string) :
  StronglySorted (fun a b => String.compare a b = Lt) ks ->
  forall acc,
    StronglySorted keyBefore (obj_keys acc) ->
    (forall a k, In a (obj_keys acc) -> In k ks -> isArrayIndex a = false ->
                 String.compare a k = Lt) ->
    (forall k, In k ks -> ~ In k (obj_keys acc)) ->
    StronglySorted keyBefore
      (obj_keys
         (fold_left
            (fun result file =>
               match obj_get newBaseline file with
               | Some (e :: entries) => obj_set result file (e :: entries)
               | _ => result
               end) ks acc)).
Proof.
  induction 1 as [|a ks Hs IH Hall]; intros acc Hacc Hlow Hfresh; simpl;
    [exact Hacc|].
  rewrite Forall_forall in Hall.
  assert (Hrest_low : forall x k, In x (obj_keys acc) -> In k ks ->
                                  isArrayIndex x = false ->
                                  String.compare x k = Lt)
    by (intros x k Hx Hk; apply Hlow; [exact Hx | now right]).
  assert (Hrest_fresh : forall k, In k ks -> ~ In k (obj_keys acc))
    by (intros k Hk; apply Hfresh; now right).
  destruct (obj_get newBaseline a) as [[|e entries]|];
    try (now apply IH).
  assert (Ha : ~ In a (obj_keys acc)) by (apply Hfresh; now left).
  apply IH.
  - rewrite obj_set_fresh by exact Ha.
    apply obj_insert_sorted; [exact Hacc | exact Ha |].
    intros Hplain. apply Forall_forall. intros x Hx.
    destruct (isArrayIndex x) eqn:Hix.
    + now apply keyBefore_index_first.
    + apply keyBefore_plain; [exact Hix | exact Hplain |].
      apply Hlow; [exact Hx | now left | exact Hix].
  - intros x k Hx Hk Hix. apply obj_keys_set_In in Hx.
    destruct Hx as [->|Hx]; [now apply Hall | now apply Hrest_low].
  - intros k Hk Hin. apply obj_keys_set_In in Hin.
    destruct Hin as [->|Hin]; [|now apply (Hrest_fresh k)].
    apply Hall in Hk. now rewrite string_compare_refl in Hk.
Qed.

Lemma sortedNonEmpty_sorted (newBaseline : JsObject (list BaselinedDiagnostic)) :
  NoDup (obj_keys newBaseline) ->
  StronglySorted keyBefore (obj_keys (sortedNonEmpty newBaseline)).
Proof.
  intros Hnd. unfold sortedNonEmpty. apply sortedNonEmpty_fold_sorted.
  - apply sorted_keys_strict.
    + eapply Permutation_NoDup; [|exact Hnd]. symmetry. apply Array_sort_perm.
    + apply Array_sort_sorted. apply defaultCompare_consistent.
  - constructor.
  - intros a k [].
  - intros k _ [].
Qed.

Lemma sortedNonEmpty_nonempty (newBaseline : JsObject (list BaselinedDiagnostic))
  (k : string) (v : list BaselinedDiagnostic) :
  NoDup (obj_keys newBaseline) ->
  In (k, v) (sortedNonEmpty newBaseline) -> v <> [].
Proof.
  intros Hnd Hin.
  apply obj_get_In in Hin;
    [|now apply keyBefore_NoDup, sortedNonEmpty_sorted].
  rewrite sortedNonEmpty_get in Hin by assumption.
  destruct (obj_get newBaseline k) as [[|e entries]|]; congruence.
Qed.
Lemma diagnosticsToBaseline_NoDup (rootDir : Uri) (fds : list FileDiagnostics)
  (b : BaselineFile) :
  diagnosticsToBaseline rootDir fds = Ok b -> NoDup (obj_keys (files b)).
Proof.
  unfold diagnosticsToBaseline.
  destruct (diagnosticsToBaseline_loop rootDir [] fds) as [data|] eqn:E;
    simpl; [|discriminate].
  intros [= <-]. simpl.
  eapply diagnosticsToBaseline_loop_NoDup; [exact E | constructor].
Qed.

(** The outcome of a write whose two reads succeed. *)
Lemma writeDiagnosticsToBaselineFile_ok (fs : FileSystem) (rootDir : Uri)
  (fds : list FileDiagnostics) (openFilesOnly : bool)
  (newBaseline previousBaseline : BaselineFile) :
  diagnosticsToBaseline rootDir fds = Ok newBaseline ->
  getBaselinedErrors fs rootDir = Ok previousBaseline ->
  let result :=
    {| files := sortedNonEmpty
                  (carryOver fs rootDir openFilesOnly (files previousBaseline)
                     (files newBaseline)) |} in
  writeDiagnosticsToBaselineFile fs rootDir fds openFilesOnly
  = Ok (result,
        writeFileSync fs (baselineFilePath rootDir) (JSON_stringify result)).
Proof.
  intros Hnew Hprev. unfold writeDiagnosticsToBaselineFile.
  rewrite Hnew, Hprev. reflexivity.
Qed.

Lemma writeDiagnosticsToBaselineFile_inv (fs : FileSystem) (rootDir : Uri)
  (fds : list FileDiagnostics) (openFilesOnly : bool)
  (result : BaselineFile) (fs' : FileSystem) :
  writeDiagnosticsToBaselineFile fs rootDir fds openFilesOnly
  = Ok (result, fs') ->
  exists newBaseline previousBaseline,
    diagnosticsToBaseline rootDir fds = Ok newBaseline
    /\ getBaselinedErrors fs rootDir = Ok previousBaseline
    /\ result
       = {| files := sortedNonEmpty
                       (carryOver fs rootDir openFilesOnly
                          (files previousBaseline) (files newBaseline)) |}
    /\ fs' = writeFileSync fs (baselineFilePath rootDir)
               (JSON_stringify result).
Proof.
  unfold writeDiagnosticsToBaselineFile.
  destruct (diagnosticsToBaseline rootDir fds) as [nb|]; simpl; [|discriminate].
  destruct (getBaselinedErrors fs rootDir) as [pb|]; simpl; [|discriminate].
  intros [= <- <-]. now exists nb, pb.
Qed.

Lemma fileExists_writeFileSync (fs : FileSystem) (path q : Uri) (data : string) :
  fileExists fs q = true -> fileExists (writeFileSync fs path data) q = true.
Proof.
  unfold fileExists, writeFileSync, obj_has. rewrite obj_get_set.
  destruct (String.eqb path q); [reflexivity | auto].
Qed.

Lemma readFileSync_writeFileSync (fs : FileSystem) (path : Uri) (data : string) :
  readFileSync (writeFileSync fs path data) path = Some data.
Proof. apply obj_get_set_eq. Qed.


(** C7, as amended: a write that goes through leaves a baseline whose file
    paths follow the enumeration order of a JavaScript object: paths that are
    array indices first, by ascending number, then the other paths in the
    order [sort()] gives them, so that a baseline without array-index paths
    has its paths strictly ascending as sorted.  Every file of the baseline
    has at least one entry, and the text written is the serialization of that
    baseline; two writes whose baselines hold the same entries for every
    path write the same text. *)
Theorem written_baseline_canonical (fs : FileSystem) (rootDir : Uri)
  (fds : list FileDiagnostics) (openFilesOnly : bool)
  (previousBaseline : BaselineFile) :
  (forall fd, In fd fds -> getRelativePath rootDir (fileUri fd) <> None) ->
  getBaselinedErrors fs rootDir = Ok previousBaseline ->
  exists result fs',
    writeDiagnosticsToBaselineFile fs rootDir fds openFilesOnly
    = Ok (result, fs')
    /\ StronglySorted keyBefore (obj_keys (files result))
    /\ ((forall file, In file (obj_keys (files result)) ->
                      isArrayIndex file = false) ->
        StronglySorted (fun a b => String.compare a b = Lt)
          (obj_keys (files result)))
    /\ (forall file entries, In (file, entries) (files result) -> entries <> [])
    /\ readFileSync fs' (baselineFilePath rootDir)
       = Some (JSON_stringify result)
    /\ (forall fs2 rootDir2 fds2 openFilesOnly2 result2 fs2',
          writeDiagnosticsToBaselineFile fs2 rootDir2 fds2 openFilesOnly2
          = Ok (result2, fs2') ->
          (forall file,
             obj_get (files result2) file = obj_get (files result) file) ->
          readFileSync fs2' (baselineFilePath rootDir2)
          = Some (JSON_stringify result)).
Proof.
  intros Hfds Hprev.
  destruct (diagnosticsToBaseline_ok rootDir fds Hfds) as (newBaseline & Hnew).
  pose proof (writeDiagnosticsToBaselineFile_ok fs rootDir fds openFilesOnly
                newBaseline previousBaseline Hnew Hprev) as Hw.
  simpl in Hw. eexists. eexists. split; [exact Hw|]. simpl.
  assert (Hnd : NoDup (obj_keys
                         (carryOver fs rootDir openFilesOnly
                            (files previousBaseline) (files newBaseline)))).
  { apply carryOver_NoDup. eapply diagnosticsToBaseline_NoDup; eauto. }
  split; [now apply sortedNonEmpty_sorted|].
  split; [apply keyBefore_plain_sorted; now apply sortedNonEmpty_sorted|].
  split; [intros file entries; now apply sortedNonEmpty_nonempty|].
  split; [apply readFileSync_writeFileSync|].
  intros fs2 rootDir2 fds2 openFilesOnly2 result2 fs2' Hw2 Hext.
  apply writeDiagnosticsToBaselineFile_inv in Hw2.
  destruct Hw2 as (nb2 & pb2 & Hnew2 & Hprev2 & -> & ->).
  rewrite readFileSync_writeFileSync. do 3 f_equal.
  simpl in Hext. apply sorted_obj_ext; [| |exact Hext].
  - apply sortedNonEmpty_sorted, carryOver_NoDup.
    eapply diagnosticsToBaseline_NoDup; eauto.
  - now apply sortedNonEmpty_sorted.
Qed.

(** C6: when an update of the baseline has gone through and [JSON.parse]
    reads back what [JSON.stringify] wrote, a second update with the same
    diagnostics goes through as well, returns the same baseline, and leaves
    in the baseline file the very text the first update left there. *)
Theorem update_baseline_twice (fs : FileSystem) (rootDir : Uri)
  (fds : list FileDiagnostics) (openFilesOnly : bool)
  (result1 : BaselineFile) (fs1 : FileSystem) :
  writeDiagnosticsToBaselineFile fs rootDir fds openFilesOnly
  = Ok (result1, fs1) ->
  JSON_parse (JSON_stringify result1) = Parsed result1 ->
  exists fs2,
    writeDiagnosticsToBaselineFile fs1 rootDir fds openFilesOnly
    = Ok (result1, fs2)
    /\ readFileSync fs1 (baselineFilePath rootDir)
       = Some (JSON_stringify result1)
    /\ readFileSync fs2 (baselineFilePath rootDir)
       = readFileSync fs1 (baselineFilePath rootDir).
Proof.
  intros Hw Hround.
  apply writeDiagnosticsToBaselineFile_inv in Hw.
  destruct Hw as (nb & pb & Hnew & Hprev & Hres & Hfs1).
  assert (Hread : readFileSync fs1 (baselineFilePath rootDir)
                  = Some (JSON_stringify result1))
    by (rewrite Hfs1; apply readFileSync_writeFileSync).
  assert (Hprev1 : getBaselinedErrors fs1 rootDir = Ok result1).
  { unfold getBaselinedErrors. now rewrite Hread, Hround. }
  pose proof (writeDiagnosticsToBaselineFile_ok fs1 rootDir fds openFilesOnly
                nb result1 Hnew Hprev1) as Hw2.
  simpl in Hw2.
  assert (Hndnb : NoDup (obj_keys (files nb)))
    by (eapply diagnosticsToBaseline_NoDup; eauto).
  assert (Hsame :
            {| files := sortedNonEmpty
                          (carryOver fs1 rootDir openFilesOnly (files result1)
                             (files nb)) |} = result1).
  { rewrite Hres at 2. f_equal.
    apply sorted_obj_ext;
      try (apply sortedNonEmpty_sorted, carryOver_NoDup; exact Hndnb).
    intros k.
    rewrite (sortedNonEmpty_get _ k (carryOver_NoDup _ _ _ _ _ Hndnb)).
    rewrite carryOver_get.
    assert (Hr1 : obj_get (files result1) k
                  = match obj_get (files nb) k with
                    | Some v => match v with [] => None | _ :: _ => Some v end
                    | None =>
                        if openFilesOnly
                           || fileExists fs (combinePaths rootDir k)
                        then match obj_get (files pb) k with
                             | Some (e :: es) => Some (e :: es)
                             | _ => None
                             end
                        else None
                    end).
    { rewrite Hres. simpl.
      rewrite (sortedNonEmpty_get _ k (carryOver_NoDup _ _ _ _ _ Hndnb)).
      rewrite carryOver_get.
      destruct (obj_get (files nb) k) as [[|e es]|]; try reflexivity.
      now destruct (openFilesOnly || _). }
    replace (sortedNonEmpty
               (carryOver fs rootDir openFilesOnly (files pb) (files nb)))
      with (files result1) by (rewrite Hres; reflexivity).
    destruct (obj_get (files nb) k) as [v|] eqn:Enb.
    - rewrite Hr1. now destruct v.
    - pose proof (fileExists_writeFileSync fs (baselineFilePath rootDir)
                    (combinePaths rootDir k) (JSON_stringify result1)) as Hmono.
      rewrite <- Hfs1 in Hmono.
      destruct openFilesOnly; simpl in *.
      + rewrite Hr1. now destruct (obj_get (files pb) k) as [[|e es]|].
      + destruct (fileExists fs1 (combinePaths rootDir k)) eqn:E1.
        * rewrite Hr1.
          destruct (fileExists fs (combinePaths rootDir k)); [|reflexivity].
          now destruct (obj_get (files pb) k) as [[|e es]|].
        * rewrite Hr1.
          destruct (fileExists fs (combinePaths rootDir k)); [|reflexivity].
          specialize (Hmono eq_refl). discriminate. }
  rewrite Hsame in Hw2.
  eexists. split; [exact Hw2|]. split; [exact Hread|].
  rewrite readFileSync_writeFileSync. now rewrite Hread.
Qed.

End BaselineProperties.

(** ** The reference collaborators meet what the theorems ask of them *)

Lemma pushRemoved_edit_script (eq : BaselinedDiagnostic -> Diagnostic -> bool)
  (e : BaselinedDiagnostic) (old : list BaselinedDiagnostic)
  (new : list Diagnostic) (cs : list Change) :
  edit_script eq old new cs -> edit_script eq (e :: old) new (pushRemoved e cs).
Proof.
  intros H. destruct cs as [|[v|v|v] rest]; simpl;
    try (apply (ES_removed eq [e]); [discriminate | exact H]).
  inversion H; subst.
  apply (ES_removed eq (e :: v)); [discriminate | assumption].
Qed.

Lemma pushAdded_edit_script (eq : BaselinedDiagnostic -> Diagnostic -> bool)
  (d : Diagnostic) (old : list BaselinedDiagnostic)
  (new : list Diagnostic) (cs : list Change) :
  edit_script eq old new cs -> edit_script eq old (d :: new) (pushAdded d cs).
Proof.
  intros H. destruct cs as [|[v|v|v] rest]; simpl;
    try (apply (ES_added eq [d]); [discriminate | exact H]).
  inversion H; subst.
  apply (ES_added eq (d :: v)); [discriminate | assumption].
Qed.

Lemma pushUnchanged_edit_script (eq : BaselinedDiagnostic -> Diagnostic -> bool)
  (e : BaselinedDiagnostic) (d : Diagnostic) (old : list BaselinedDiagnostic)
  (new : list Diagnostic) (cs : list Change) :
  eq e d = true ->
  edit_script eq old new cs ->
  edit_script eq (e :: old) (d :: new) (pushUnchanged d cs).
Proof.
  intros He H. destruct cs as [|[v|v|v] rest]; simpl;
    try (apply (ES_unchanged eq [e] [d]); [repeat constructor; exact He | exact H]).
  inversion H; subst.
  apply (ES_unchanged eq (e :: o) (d :: v)); [now constructor | assumption].
Qed.

Lemma lcsDiff_edit_script (eq : BaselinedDiagnostic -> Diagnostic -> bool)
  (old : list BaselinedDiagnostic) (new : list Diagnostic) :
  edit_script eq old new (lcsDiff eq old new).
Proof.
  revert new. induction old as [|e old IH]; intros new.
  - destruct new as [|d new]; simpl; [constructor|].
    rewrite <- (app_nil_r (d :: new)) at 1.
    apply ES_added; [discriminate | constructor].
  - induction new as [|d new IHnew].
    + simpl. rewrite <- (app_nil_r (e :: old)) at 1.
      apply ES_removed; [discriminate | constructor].
    + change (lcsDiff eq (e :: old) (d :: new))
        with (if eq e d then pushUnchanged d (lcsDiff eq old new)
              else if Nat.leb (lcsLength eq (e :: old) new)
                        (lcsLength eq old (d :: new))
                   then pushRemoved e (lcsDiff eq old (d :: new))
                   else pushAdded d (lcsDiff eq (e :: old) new)).
      destruct (eq e d) eqn:He.
      * now apply pushUnchanged_edit_script.
      * destruct (Nat.leb _ _).
        -- now apply pushRemoved_edit_script.
        -- now apply pushAdded_edit_script.
Qed.

Lemma compareRules_consistent : consistent compareRules.
Proof.
  destruct defaultCompare_consistent as (Htot & Htrans & Hsign).
  unfold consistent, before in *. repeat split.
  - intros [x|] [y|]; simpl; try lia. apply Htot.
  - intros [x|] [y|] [z|]; simpl; try lia. apply Htrans.
  - intros [x|] [y|]; simpl; try lia. apply Hsign.
Qed.

Lemma compareByPosition_consistent : consistent compareByPosition.
Proof.
  destruct compareRules_consistent as (Htot & Htrans & Hsign).
  unfold consistent, before, compareByPosition in *. repeat split.
  - intros a b.
    repeat match goal with
           | |- context [?x <? ?y] => destruct (Z.ltb_spec x y)
           end; try lia.
    apply Htot.
  - intros a b c.
    repeat match goal with
           | |- context [?x <? ?y] => destruct (Z.ltb_spec x y)
           end; try lia.
    apply Htrans.
  - intros a b.
    repeat match goal with
           | |- context [?x <? ?y] => destruct (Z.ltb_spec x y)
           end; try lia.
    apply Hsign.
Qed.

(** ** The theorems at work on the sample project *)

(** The three outcomes of loading: no baseline file, an unparsable one, and
    the sample baseline. *)
Lemma getBaselinedErrors_outcome_witness :
  @getBaselinedErrors reference [] sampleRoot = Ok {| files := [] |}
  /\ @getBaselinedErrors reference corruptFs sampleRoot = Throw SyntaxError
  /\ @getBaselinedErrors reference sampleFs sampleRoot = Ok sampleBaseline.
Proof.
  split; [|split].
  - apply (proj1 (@getBaselinedErrors_outcome reference [] sampleRoot)).
    reflexivity.
  - apply (proj1 (proj2 (@getBaselinedErrors_outcome reference corruptFs
                           sampleRoot)) "{"); vm_compute; reflexivity.
  - apply (proj2 (proj2 (@getBaselinedErrors_outcome reference sampleFs
                           sampleRoot)) (jsonStringify sampleBaseline));
      vm_compute; reflexivity.
Defined.

(** C1 does not hold as stated: a baseline file holding the single character
    [{] is unparsable, and loading it raises [SyntaxError] instead of
    returning the empty baseline. *)
Lemma corrupt_baseline_raises :
  readFileSync corruptFs (@baselineFilePath reference sampleRoot) = Some "{"
  /\ jsonParse "{" = ParseSyntaxError
  /\ @getBaselinedErrors reference corruptFs sampleRoot = Throw SyntaxError
  /\ @getBaselinedErrors reference corruptFs sampleRoot
     <> Ok {| files := [] |}.
Proof.
  repeat split; try (vm_compute; reflexivity).
  vm_compute. discriminate.
Qed.



(** The scenario of the spec: columns 4 to 10 on one line, reported on line 10
    when the baseline was written and on line 15 now. *)
Example fingerprint_survives_line_insertion :
  unboundAt 15 = shiftLines 5 (unboundAt 10)
  /\ comparator (toBaselinedDiagnostic (unboundAt 10)) (unboundAt 15) = true
  /\ option_map (map baselineStatus)
       (match @sortDiagnosticsAndMatchBaseline reference sampleFs sampleRoot
                "/proj/a.py" [unboundAt 15] with
        | Ok res => Some res
        | Throw _ => None
        end)
     = Some [Some Baselined].
Proof. repeat split; vm_compute; reflexivity. Qed.

(** Three diagnostics of [a.py] against its two baseline entries: the two
    that are paired come back marked, the new one as it is; and two
    diagnostics that both have their entry. *)
Lemma reconcile_visible_witness :
  @getBaselinedErrorsForFile reference sampleFs sampleRoot "/proj/a.py"
  = Ok (toBaselinedDiagnostic deprecatedCall
        :: toBaselinedDiagnostic (unboundAt 10) :: nil)
  /\ @pairedWithEntry reference
       (toBaselinedDiagnostic deprecatedCall
        :: toBaselinedDiagnostic (unboundAt 10) :: nil)
       (newError :: unboundAt 15 :: deprecatedCall :: nil)
     = true :: true :: false :: nil
  /\ (exists res,
        @sortDiagnosticsAndMatchBaseline reference sampleFs sampleRoot
          "/proj/a.py" (newError :: unboundAt 15 :: deprecatedCall :: nil)
        = Ok res
        /\ List.length res = 3%nat
        /\ nth_error res 1
           = Some (mkDiagnostic Error "x is possibly unbound" (onLine 15 4 10)
                     (Some "reportPossiblyUnbound") (Some Baselined))
        /\ nth_error res 2 = Some newError)
  /\ (exists res,
        @sortDiagnosticsAndMatchBaseline reference sampleFs sampleRoot
          "/proj/a.py" (unboundAt 15 :: deprecatedCall :: nil)
        = Ok res
        /\ res
           = mkDiagnostic Deprecated "f is deprecated" (onLine 3 0 5)
               (Some "reportDeprecated") (Some BaselinedWithHint)
             :: mkDiagnostic Error "x is possibly unbound" (onLine 15 4 10)
                  (Some "reportPossiblyUnbound") (Some Baselined)
             :: nil).
Proof.
  assert (Hload :
            @getBaselinedErrorsForFile reference sampleFs sampleRoot
              "/proj/a.py"
            = Ok (toBaselinedDiagnostic deprecatedCall
                  :: toBaselinedDiagnostic (unboundAt 10) :: nil))
    by (vm_compute; reflexivity).
  split; [exact Hload|]. split; [vm_compute; reflexivity|]. split.
  - destruct (@reconcile_visible reference sampleFs sampleRoot "/proj/a.py"
                (newError :: unboundAt 15 :: deprecatedCall :: nil) _ Hload
                (lcsDiff_edit_script _ _ _))
      as (res & Hres & Hall & _ & _ & _ & Hplain & Hpass & _).
    exists res. split; [exact Hres|]. split; [|split].
    + apply Forall2_length in Hall. rewrite <- Hall. reflexivity.
    + apply (Hplain 1%nat (unboundAt 15)).
      * vm_compute. reflexivity.
      * vm_compute. reflexivity.
      * intros r name rules [= <-]
          [[= <- <-]|[[= <- <-]|[[= <- <-]|[]]]]; simpl;
          intuition discriminate.
    + apply (Hpass 2%nat newError).
      * vm_compute. reflexivity.
      * intros e [<-|[<-|[]]]; vm_compute; reflexivity.
  - destruct (@reconcile_visible reference sampleFs sampleRoot "/proj/a.py"
                (unboundAt 15 :: deprecatedCall :: nil) _ Hload
                (lcsDiff_edit_script _ _ _))
      as (res & Hres & _ & _ & _ & _ & _ & _ & Hmarked).
    exists res. split; [exact Hres|].
    rewrite Hmarked; [vm_compute; reflexivity | |].
    + intros script Hs. apply unchangedCount_bound in Hs.
      eapply Nat.le_trans; [exact Hs|]. vm_compute. lia.
    + assert (Hsorted :
                Array_sort (@compareDiagnostics reference)
                  (unboundAt 15 :: deprecatedCall :: nil)
                = deprecatedCall :: unboundAt 15 :: nil)
        by (vm_compute; reflexivity).
      rewrite Hsorted.
      apply PIO_pair; [vm_compute; reflexivity|].
      apply PIO_pair; [vm_compute; reflexivity|].
      apply PIO_done.
Defined.

(** C2 does not hold as stated: [reportPossiblyUnbound] has no hint tier and
    the diagnostic matches its baseline entry, yet it is in the returned
    list, marked 'baselined', not left out of it. *)
Lemma matched_diagnostic_stays_in_result :
  comparator (toBaselinedDiagnostic (unboundAt 10)) (unboundAt 15) = true
  /\ @firstExtraLevel docExtraOptionDiagnosticRules "reportPossiblyUnbound"
     = None
  /\ @sortDiagnosticsAndMatchBaseline reference sampleFs sampleRoot
       "/proj/a.py" [unboundAt 15]
     = Ok [mkDiagnostic Error "x is possibly unbound" (onLine 15 4 10)
             (Some "reportPossiblyUnbound") (Some Baselined)].
Proof. repeat split; vm_compute; reflexivity. Qed.

(** [reportDeprecated] is listed by the third entry of the table only: the
    matched diagnostic of that rule comes back first, as a deprecation
    hint. *)
Lemma reconcile_hint_tier_witness :
  exists res,
    @sortDiagnosticsAndMatchBaseline reference sampleFs sampleRoot
      "/proj/a.py" (newError :: unboundAt 15 :: deprecatedCall :: nil)
    = Ok res
    /\ List.length res = 3%nat
    /\ nth_error
         (@pairedWithEntry reference
            (toBaselinedDiagnostic deprecatedCall
             :: toBaselinedDiagnostic (unboundAt 10) :: nil)
            (newError :: unboundAt 15 :: deprecatedCall :: nil)) 0
       = Some true
    /\ nth_error res 0
       = Some (mkDiagnostic Deprecated "f is deprecated" (onLine 3 0 5)
                 (Some "reportDeprecated") (Some BaselinedWithHint)).
Proof.
  assert (Hload :
            @getBaselinedErrorsForFile reference sampleFs sampleRoot
              "/proj/a.py"
            = Ok (toBaselinedDiagnostic deprecatedCall
                  :: toBaselinedDiagnostic (unboundAt 10) :: nil))
    by (vm_compute; reflexivity).
  destruct (@reconcile_hint_tier reference sampleFs sampleRoot "/proj/a.py"
              (newError :: unboundAt 15 :: deprecatedCall :: nil) _ Hload
              (lcsDiff_edit_script _ _ _))
    as (res & Hres & _ & _ & Hlen & _ & Hhint & _).
  exists res. split; [exact Hres|]. split; [exact Hlen|].
  split; [vm_compute; reflexivity|].
  apply (Hhint 0%nat deprecatedCall "reportDeprecated"
           (firstn 2 docExtraOptionDiagnosticRules) "deprecated"
           ("reportDeprecated" :: "reportTypeCommentUsage" :: nil) nil).
  - vm_compute. reflexivity.
  - vm_compute. reflexivity.
  - reflexivity.
  - discriminate.
  - reflexivity.
  - now left.
  - intros n rs [[= <- <-]|[[= <- <-]|[]]]; simpl;
      intuition discriminate.
Defined.

(** Three diagnostics on three different lines, in two orders. *)
Lemma reconcile_order_independent_witness :
  Permutation (newError :: unboundAt 15 :: deprecatedCall :: nil)
    (deprecatedCall :: newError :: unboundAt 15 :: nil)
  /\ @sortDiagnosticsAndMatchBaseline reference sampleFs sampleRoot
       "/proj/a.py" (newError :: unboundAt 15 :: deprecatedCall :: nil)
     = @sortDiagnosticsAndMatchBaseline reference sampleFs sampleRoot
         "/proj/a.py" (deprecatedCall :: newError :: unboundAt 15 :: nil).
Proof.
  assert (Hp : Permutation (newError :: unboundAt 15 :: deprecatedCall :: nil)
                 (deprecatedCall :: newError :: unboundAt 15 :: nil)).
  { apply Permutation_sym.
    apply (Permutation_cons_append (newError :: unboundAt 15 :: nil)). }
  split; [exact Hp|].
  apply (@reconcile_order_independent reference sampleFs sampleRoot
           "/proj/a.py" _ _ compareByPosition_consistent); [|exact Hp].
  intros a b Ha Hb. simpl in Ha, Hb.
  destruct Ha as [<-|[<-|[<-|[]]]]; destruct Hb as [<-|[<-|[<-|[]]]];
    vm_compute; intros H; first [reflexivity | discriminate H].
Defined.

(** C8 does not hold as stated: two diagnostics that start at the same place
    under the same rule compare as equal, the stable sort leaves them in the
    order they came in, and the two orders of the same input give two
    different results. *)
Lemma tied_diagnostics_keep_input_order :
  Permutation [tieShort; tieLong] [tieLong; tieShort]
  /\ compareByPosition tieShort tieLong = 0
  /\ @sortDiagnosticsAndMatchBaseline reference [] sampleRoot "/proj/a.py"
       [tieShort; tieLong] = Ok [tieShort; tieLong]
  /\ @sortDiagnosticsAndMatchBaseline reference [] sampleRoot "/proj/a.py"
       [tieLong; tieShort] = Ok [tieLong; tieShort]
  /\ @sortDiagnosticsAndMatchBaseline reference [] sampleRoot "/proj/a.py"
       [tieShort; tieLong]
     <> @sortDiagnosticsAndMatchBaseline reference [] sampleRoot "/proj/a.py"
          [tieLong; tieShort].
Proof.
  split; [apply perm_swap|].
  repeat split; try (vm_compute; reflexivity).
  vm_compute. discriminate.
Qed.

(** Of an error and a plain unused-code hint only the error is recorded. *)
Lemma diagnosticsToBaseline_no_plain_hints_witness :
  exists b,
    @diagnosticsToBaseline reference sampleRoot sampleRun = Ok b
    /\ List.length (List.concat (map snd (files b))) = 1%nat.
Proof.
  destruct (@diagnosticsToBaseline_no_plain_hints reference sampleRoot
              sampleRun) as (b & Hb & _ & Hcount).
  - intros fd [<-|[]]. vm_compute. discriminate.
  - exists b. split; [exact Hb|]. rewrite Hcount. reflexivity.
Defined.


(** The write that keeps [b.py] lists [./a.py] before [./b.py]. *)
Lemma written_baseline_canonical_witness :
  exists result fs',
    @writeDiagnosticsToBaselineFile reference sampleFs sampleRoot sampleRun
      true = Ok (result, fs')
    /\ obj_keys (files result) = ["./a.py"; "./b.py"]
    /\ StronglySorted keyBefore (obj_keys (files result))
    /\ StronglySorted (fun a b => String.compare a b = Lt)
         (obj_keys (files result))
    /\ readFileSync fs' (posixCombinePaths sampleRoot
                           ".basedpyright/baseline.json")
       = Some (jsonStringify result).
Proof.
  destruct (@written_baseline_canonical reference sampleFs sampleRoot
              sampleRun true sampleBaseline)
    as (result & fs' & Hw & Hsorted & Hplain & _ & Hread & _).
  - intros fd [<-|[]]. vm_compute. discriminate.
  - vm_compute. reflexivity.
  - assert (Hkeys : obj_keys (files result) = ["./a.py"; "./b.py"]).
    { assert (Hrun : exists fs0,
                 @writeDiagnosticsToBaselineFile reference sampleFs sampleRoot
                   sampleRun true
                 = Ok ({| files :=
                            [("./a.py", [toBaselinedDiagnostic newError]);
                             ("./b.py", [toBaselinedDiagnostic staleError])]
                       |}, fs0))
        by (eexists; vm_compute; reflexivity).
      destruct Hrun as (fs0 & Hrun). rewrite Hrun in Hw.
      injection Hw as <- _. reflexivity. }
    exists result, fs'. repeat split; try assumption.
    apply Hplain. rewrite Hkeys.
    intros file [<-|[<-|[]]]; reflexivity.
Defined.

(** Carrying over a baseline whose paths are [9] and [10]: the object lists
    [9] before [10], the order of the numbers, whereas [sort()] puts the text
    [10] before the text [9]. *)
Lemma numbered_paths_leave_sort_order :
  getBaselinedErrors (env := reference) numberedFs sampleRoot
  = Ok numberedBaseline
  /\ exists fs',
       @writeDiagnosticsToBaselineFile reference numberedFs sampleRoot [] true
       = Ok (numberedBaseline, fs')
       /\ readFileSync fs' (@baselineFilePath reference sampleRoot)
          = Some (jsonStringify numberedBaseline)
       /\ obj_keys (files numberedBaseline) = ["9"; "10"]
       /\ Array_sort defaultCompare (obj_keys (files numberedBaseline))
          = ["10"; "9"]
       /\ ~ StronglySorted (before defaultCompare)
             (obj_keys (files numberedBaseline)).
Proof.
  split; [vm_compute; reflexivity|].
  eexists. split; [vm_compute; reflexivity|].
  split; [vm_compute; reflexivity|].
  split; [reflexivity|].
  split; [vm_compute; reflexivity|].
  intros Hs. simpl in Hs. inversion Hs as [|? ? _ Hall]; subst.
  inversion Hall as [|? ? Hlt _]; subst.
  vm_compute in Hlt. now apply Hlt.
Qed.

(** Two exhaustive updates of the sample project in a row. *)
Lemma update_baseline_twice_witness :
  @writeDiagnosticsToBaselineFile reference sampleFs sampleRoot sampleRun false
  = Ok (sampleUpdated,
        writeFileSync sampleFs
          (posixCombinePaths sampleRoot ".basedpyright/baseline.json")
          (jsonStringify sampleUpdated))
  /\ jsonParse (jsonStringify sampleUpdated) = Parsed sampleUpdated
  /\ exists fs2,
       @writeDiagnosticsToBaselineFile reference
         (writeFileSync sampleFs
            (posixCombinePaths sampleRoot ".basedpyright/baseline.json")
            (jsonStringify sampleUpdated))
         sampleRoot sampleRun false
       = Ok (sampleUpdated, fs2)
       /\ readFileSync fs2
            (posixCombinePaths sampleRoot ".basedpyright/baseline.json")
          = Some (jsonStringify sampleUpdated).
Proof.
  assert (Hfirst :
            @writeDiagnosticsToBaselineFile reference sampleFs sampleRoot
              sampleRun false
            = Ok (sampleUpdated,
                  writeFileSync sampleFs
                    (posixCombinePaths sampleRoot
                       ".basedpyright/baseline.json")
                    (jsonStringify sampleUpdated)))
    by (vm_compute; reflexivity).
  assert (Hround : jsonParse (jsonStringify sampleUpdated)
                   = Parsed sampleUpdated) by (vm_compute; reflexivity).
  split; [exact Hfirst|]. split; [exact Hround|].
  destruct (@update_baseline_twice reference sampleFs sampleRoot sampleRun
              false _ _ Hfirst Hround) as (fs2 & Hsecond & Hread1 & Hread2).
  exists fs2. split; [exact Hsecond|].
  exact (eq_trans Hread2 Hread1).
Defined.

(** ** Further properties of the module *)

Section MoreProperties.

Context {env : Collaborators}.

(** *** [diagnosticsToBaseline] *)

Lemma diagnosticsToBaseline_loop_get (rootDir : Uri)
  (fds : list FileDiagnostics) :
  forall acc b,
    diagnosticsToBaseline_loop rootDir acc fds = Ok b ->
    forall p,
      obj_get b p
      = match obj_get acc p with
        | Some v => Some (v ++ entriesFor rootDir fds p)
        | None =>
            if reportsOn rootDir fds p
            then Some (entriesFor rootDir fds p)
            else None
        end.
Proof.
  induction fds as [|fd fds IH]; intros acc b; simpl.
  - intros [= ->] p. destruct (obj_get b p); [now rewrite app_nil_r | easy].
  - destruct (getRelativePath rootDir (fileUri fd)) as [q|] eqn:Hrel.
    2:{ unfold addFileDiagnostics. rewrite Hrel. discriminate. }
    destruct (addFileDiagnostics_ok rootDir acc fd q Hrel)
      as (acc' & -> & _ & Hget'). simpl.
    intros Hloop p. rewrite (IH acc' b Hloop p), Hget'.
    destruct (String.eqb q p); simpl.
    + destruct (obj_get acc p) as [v|]; simpl; now rewrite ?app_assoc.
    + reflexivity.
Qed.

Lemma diagnosticsToBaseline_get (rootDir : Uri) (fds : list FileDiagnostics)
  (b : BaselineFile) (p : string) :
  diagnosticsToBaseline rootDir fds = Ok b ->
  obj_get (files b) p
  = if reportsOn rootDir fds p then Some (entriesFor rootDir fds p) else None.
Proof.
  unfold diagnosticsToBaseline.
  destruct (diagnosticsToBaseline_loop rootDir [] fds) as [data|] eqn:E;
    simpl; [|discriminate].
  intros [= <-]. simpl.
  now rewrite (diagnosticsToBaseline_loop_get rootDir fds [] data E p).
Qed.

(** X1: when every reported file lies under the root, the baseline built from
    the run has a key for exactly the reported paths, and under each key the
    entries of the kept diagnostics of every report on that path, in the order
    reported; a path reported with nothing kept has the empty list. *)
Theorem diagnosticsToBaseline_exact (rootDir : Uri) (fds : list FileDiagnostics) :
  (forall fd, In fd fds -> getRelativePath rootDir (fileUri fd) <> None) ->
  exists b,
    diagnosticsToBaseline rootDir fds = Ok b
    /\ NoDup (obj_keys (files b))
    /\ (forall p,
          In p (obj_keys (files b)) <->
          exists fd, In fd fds /\ getRelativePath rootDir (fileUri fd) = Some p)
    /\ (forall p,
          In p (obj_keys (files b)) ->
          obj_get (files b) p
          = Some (flat_map
                    (fun fd =>
                       if rule_eqb (getRelativePath rootDir (fileUri fd)) (Some p)
                       then map toBaselinedDiagnostic
                              (filter isErrorDiagnostic (diagnostics fd))
                       else []) fds)).
Proof.
  intros Hin.
  destruct (diagnosticsToBaseline_ok rootDir fds Hin) as (b & Hb).
  exists b. split; [exact Hb|].
  split; [eapply diagnosticsToBaseline_NoDup; eauto|].
  assert (Hrep : forall p,
             reportsOn rootDir fds p = true <->
             exists fd, In fd fds
                        /\ getRelativePath rootDir (fileUri fd) = Some p).
  { intros p. unfold reportsOn. rewrite existsb_exists. split.
    - intros (fd & Hfd & Hq). exists fd. split; [exact Hfd|].
      destruct (getRelativePath rootDir (fileUri fd)); [|discriminate].
      apply String.eqb_eq in Hq. now subst.
    - intros (fd & Hfd & Hq). exists fd. split; [exact Hfd|].
      rewrite Hq. apply String.eqb_refl. }
  assert (Hkeys : forall p,
             In p (obj_keys (files b)) <-> reportsOn rootDir fds p = true).
  { intros p. rewrite <- obj_get_keys.
    rewrite (diagnosticsToBaseline_get rootDir fds b p Hb).
    destruct (reportsOn rootDir fds p); split; congruence. }
  split.
  - intros p. now rewrite Hkeys, Hrep.
  - intros p Hp. rewrite (diagnosticsToBaseline_get rootDir fds b p Hb).
    apply Hkeys in Hp. rewrite Hp. f_equal. unfold entriesFor.
    apply flat_map_ext. intros fd.
    destruct (getRelativePath rootDir (fileUri fd)); reflexivity.
Qed.

Lemma addFileDiagnostics_throw (rootDir : Uri)
  (acc : JsObject (list BaselinedDiagnostic)) (fd : FileDiagnostics)
  (e : JsError) :
  addFileDiagnostics rootDir acc fd = Throw e ->
  e = TypeError /\ getRelativePath rootDir (fileUri fd) = None.
Proof.
  unfold addFileDiagnostics.
  destruct (getRelativePath rootDir (fileUri fd)) as [q|].
  - destruct (filter isErrorDiagnostic (diagnostics fd)); discriminate.
  - intros [= <-]. now split.
Qed.

Lemma diagnosticsToBaseline_loop_throw (rootDir : Uri)
  (fds : list FileDiagnostics) :
  (exists fd, In fd fds /\ getRelativePath rootDir (fileUri fd) = None) ->
  forall acc, diagnosticsToBaseline_loop rootDir acc fds = Throw TypeError.
Proof.
  induction fds as [|fd fds IH]; intros (fd0 & Hin & Hout) acc; simpl.
  - destruct Hin.
  - destruct (addFileDiagnostics rootDir acc fd) as [acc'|e] eqn:E; simpl.
    + apply IH. destruct Hin as [<-|Hin]; [|now exists fd0].
      unfold addFileDiagnostics in E. rewrite Hout in E. discriminate.
    + apply addFileDiagnostics_throw in E. now destruct E as [-> _].
Qed.

(** X2: a single reported file outside the root makes the rebuild throw the
    [TypeError] of [undefined.toString()]; the update then throws it as well,
    before the baseline file is read or written, whatever that file holds. *)
Theorem outside_file_aborts_update (fs : FileSystem) (rootDir : Uri)
  (fds : list FileDiagnostics) (openFilesOnly : bool) :
  (exists fd, In fd fds /\ getRelativePath rootDir (fileUri fd) = None) ->
  diagnosticsToBaseline rootDir fds = Throw TypeError
  /\ writeDiagnosticsToBaselineFile fs rootDir fds openFilesOnly
     = Throw TypeError.
Proof.
  intros Hout.
  assert (H : diagnosticsToBaseline rootDir fds = Throw TypeError).
  { unfold diagnosticsToBaseline.
    now rewrite (diagnosticsToBaseline_loop_throw rootDir fds Hout []). }
  split; [exact H|].
  unfold writeDiagnosticsToBaselineFile. now rewrite H.
Qed.

(** *** [writeDiagnosticsToBaselineFile] *)

Lemma write_lookup (fs : FileSystem) (rootDir : Uri)
  (fds : list FileDiagnostics) (openFilesOnly : bool)
  (newBaseline previousBaseline : BaselineFile) (p : string) :
  diagnosticsToBaseline rootDir fds = Ok newBaseline ->
  obj_get
    (sortedNonEmpty
       (carryOver fs rootDir openFilesOnly (files previousBaseline)
          (files newBaseline))) p
  = if reportsOn rootDir fds p
    then match entriesFor rootDir fds p with
         | [] => None
         | e :: es => Some (e :: es)
         end
    else if openFilesOnly || fileExists fs (combinePaths rootDir p)
         then match obj_get (files previousBaseline) p with
              | Some (e :: es) => Some (e :: es)
              | _ => None
              end
         else None.
Proof.
  intros Hnew.
  rewrite sortedNonEmpty_get
    by (apply carryOver_NoDup; eapply diagnosticsToBaseline_NoDup; eauto).
  rewrite carryOver_get, (diagnosticsToBaseline_get rootDir fds _ p Hnew).
  destruct (reportsOn rootDir fds p); [reflexivity|].
  now destruct (openFilesOnly || _).
Qed.


(** X4: with the same file system and the same run, every path the exhaustive
    update keeps is kept with the same entries by the update on open files
    only; skipping the existence check can only keep more. *)
Theorem open_files_only_keeps_more (fs : FileSystem) (rootDir : Uri)
  (fds : list FileDiagnostics) (result0 : BaselineFile) (fs0 : FileSystem) :
  writeDiagnosticsToBaselineFile fs rootDir fds false = Ok (result0, fs0) ->
  exists result1 fs1,
    writeDiagnosticsToBaselineFile fs rootDir fds true = Ok (result1, fs1)
    /\ (forall p entries,
          obj_get (files result0) p = Some entries ->
          obj_get (files result1) p = Some entries).
Proof.
  intros Hw. apply writeDiagnosticsToBaselineFile_inv in Hw.
  destruct Hw as (nb & pb & Hnew & Hprev & -> & _).
  pose proof (writeDiagnosticsToBaselineFile_ok fs rootDir fds true nb pb
                Hnew Hprev) as Hw1.
  simpl in Hw1. eexists. eexists. split; [exact Hw1|]. simpl.
  intros p entries.
  rewrite !sortedNonEmpty_get
    by (apply carryOver_NoDup; eapply diagnosticsToBaseline_NoDup; eauto).
  rewrite !carryOver_get. simpl.
  destruct (obj_get (files nb) p); [auto|].
  destruct (fileExists fs (combinePaths rootDir p)); [auto | discriminate].
Qed.

(** X5: an update that goes through changes one file only: every path other
    than that of the baseline file reads as before and exists as before. *)
Theorem update_touches_baseline_file_only (fs : FileSystem) (rootDir : Uri)
  (fds : list FileDiagnostics) (openFilesOnly : bool)
  (result : BaselineFile) (fs' : FileSystem) :
  writeDiagnosticsToBaselineFile fs rootDir fds openFilesOnly
  = Ok (result, fs') ->
  forall q,
    q <> baselineFilePath rootDir ->
    readFileSync fs' q = readFileSync fs q
    /\ fileExists fs' q = fileExists fs q.
Proof.
  intros Hw q Hq. apply writeDiagnosticsToBaselineFile_inv in Hw.
  destruct Hw as (nb & pb & _ & _ & _ & ->).
  unfold readFileSync, fileExists, writeFileSync, obj_has.
  rewrite obj_get_set_ne by congruence. now split.
Qed.

(** X6: when [JSON.parse] reads back what [JSON.stringify] wrote, loading
    after an update returns the baseline the update returned, and the entries
    loaded for a file under the root are the ones the update recorded for its
    path (none when the path was left out). *)
Theorem load_after_update (fs : FileSystem) (rootDir : Uri)
  (fds : list FileDiagnostics) (openFilesOnly : bool)
  (result : BaselineFile) (fs' : FileSystem) :
  writeDiagnosticsToBaselineFile fs rootDir fds openFilesOnly
  = Ok (result, fs') ->
  JSON_parse (JSON_stringify result) = Parsed result ->
  getBaselinedErrors fs' rootDir = Ok result
  /\ (forall file key,
        getRelativePath rootDir file = Some key -> key <> "" ->
        getBaselinedErrorsForFile fs' rootDir file
        = Ok (match obj_get (files result) key with
              | Some entries => entries
              | None => []
              end)).
Proof.
  intros Hw Hround. apply writeDiagnosticsToBaselineFile_inv in Hw.
  destruct Hw as (nb & pb & _ & _ & _ & Hfs).
  assert (Hload : getBaselinedErrors fs' rootDir = Ok result).
  { unfold getBaselinedErrors.
    rewrite Hfs, readFileSync_writeFileSync, Hround. reflexivity. }
  split; [exact Hload|].
  intros file key Hkey Hne. unfold getBaselinedErrorsForFile.
  rewrite Hkey, Hload. simpl.
  apply String.eqb_neq in Hne. rewrite Hne. simpl.
  now destruct (obj_get (files result) key).
Qed.

(** X7: for a file under the root, whatever loading the baseline throws is
    thrown by [getBaselinedErrorsForFile] and by reconciliation as well, and
    no diagnostic is returned. *)
Theorem load_failure_reaches_reconciliation (fs : FileSystem)
  (rootDir file : Uri) (key : string) (e : JsError) :
  getRelativePath rootDir file = Some key -> key <> "" ->
  getBaselinedErrors fs rootDir = Throw e ->
  getBaselinedErrorsForFile fs rootDir file = Throw e
  /\ (forall ds, sortDiagnosticsAndMatchBaseline fs rootDir file ds = Throw e).
Proof.
  intros Hkey Hne Hload.
  assert (H : getBaselinedErrorsForFile fs rootDir file = Throw e).
  { unfold getBaselinedErrorsForFile. rewrite Hkey, Hload. simpl.
    apply String.eqb_neq in Hne. now rewrite Hne. }
  split; [exact H|].
  intros ds. unfold sortDiagnosticsAndMatchBaseline. now rewrite H.
Qed.

(** *** [sortDiagnosticsAndMatchBaseline] *)

Lemma applyChanges_no_entries (old : list BaselinedDiagnostic)
  (new : list Diagnostic) (diff : list Change) :
  edit_script comparator old new diff -> old = [] ->
  applyChanges diff [] = Ok new.
Proof.
  induction 1 as [|v old new cs Hv _ IH
                  |v old new cs Hv _ IH
                  |o v old new cs Hov _ IH]; intros Hnil; simpl.
  - reflexivity.
  - apply app_eq_nil in Hnil. destruct Hnil as [-> _]. congruence.
  - destruct v as [|d v]; [congruence|]. simpl.
    rewrite applyChanges_acc, (IH Hnil). reflexivity.
  - apply app_eq_nil in Hnil. destruct Hnil as [-> Hold].
    inversion Hov; subst. simpl. apply IH. reflexivity.
Qed.

(** X8: when nothing is recorded for the file (no baseline yet, a file outside
    the root, a file without entries), reconciliation returns the diagnostics
    sorted and otherwise untouched: nothing is marked and nothing is lost. *)
Theorem nothing_recorded_passes_all (fs : FileSystem) (rootDir file : Uri)
  (ds : list Diagnostic) :
  getBaselinedErrorsForFile fs rootDir file = Ok [] ->
  edit_script comparator [] (Array_sort compareDiagnostics ds)
    (diffArrays comparator [] (Array_sort compareDiagnostics ds)) ->
  sortDiagnosticsAndMatchBaseline fs rootDir file ds
  = Ok (Array_sort compareDiagnostics ds).
Proof.
  intros Hload Hdiff. unfold sortDiagnosticsAndMatchBaseline.
  rewrite Hload. simpl. eapply applyChanges_no_entries; eauto.
Qed.

Lemma markBaselined_fields (d : Diagnostic) :
  message (markBaselined d) = message d
  /\ range (markBaselined d) = range d
  /\ rule (markBaselined d) = rule d
  /\ (baselineStatus (markBaselined d) = Some BaselinedWithHint
      \/ (baselineStatus (markBaselined d) = Some Baselined
          /\ category (markBaselined d) = category d)).
Proof.
  unfold markBaselined, getRule.
  destruct (rule d) as [r|] eqn:Hr; simpl.
  - destruct (negb (String.eqb r "")); simpl.
    + destruct (firstExtraLevel extraOptionDiagnosticRules r); simpl;
        rewrite ?Hr; auto 6.
    + rewrite Hr. auto 6.
  - rewrite Hr. auto 6.
Qed.

(** X9: reconciliation changes neither the text, nor the place, nor the rule
    of a diagnostic: message, range and rule of the returned diagnostics are,
    position by position, those of the sorted input, so every diagnostic that
    came in goes out once. *)
Theorem reconciliation_keeps_content (fs : FileSystem) (rootDir file : Uri)
  (ds : list Diagnostic) (entries : list BaselinedDiagnostic) :
  getBaselinedErrorsForFile fs rootDir file = Ok entries ->
  edit_script comparator entries (Array_sort compareDiagnostics ds)
    (diffArrays comparator entries (Array_sort compareDiagnostics ds)) ->
  exists res,
    sortDiagnosticsAndMatchBaseline fs rootDir file ds = Ok res
    /\ map (fun d => (message d, range d, rule d)) res
       = map (fun d => (message d, range d, rule d))
           (Array_sort compareDiagnostics ds)
    /\ Permutation (map (fun d => (message d, range d, rule d)) ds)
         (map (fun d => (message d, range d, rule d)) res).
Proof.
  intros Hload Hdiff.
  destruct (sortDiagnosticsAndMatchBaseline_shape fs rootDir file ds entries
              Hload Hdiff) as (res & Hres & Hall).
  exists res. split; [exact Hres|]. clear Hres Hdiff.
  assert (Hmap : map (fun d => (message d, range d, rule d)) res
                 = map (fun d => (message d, range d, rule d))
                     (Array_sort compareDiagnostics ds)).
  { induction Hall as [|d r sorted res' Hdr _ IH]; simpl; [reflexivity|].
    f_equal; [|exact IH].
    destruct Hdr as [->|[_ ->]]; [reflexivity|].
    destruct (markBaselined_fields d) as (-> & -> & -> & _). reflexivity. }
  split; [exact Hmap|].
  rewrite Hmap. apply Permutation_map. symmetry. apply Array_sort_perm.
Qed.

Lemma applyChanges_marked (old : list BaselinedDiagnostic)
  (new : list Diagnostic) (diff : list Change) :
  edit_script comparator old new diff ->
  Forall (fun d => baselineStatus d = None) new ->
  exists res,
    applyChanges diff [] = Ok res
    /\ (List.length (filter isMarked res) <= List.length old)%nat.
Proof.
  induction 1 as [|v old new cs Hv _ IH
                  |v old new cs Hv _ IH
                  |o v old new cs Hov _ IH]; intros Hun; simpl.
  - exists []. split; [reflexivity | simpl; lia].
  - destruct (IH Hun) as (res & Hres & Hlen).
    exists res. split; [exact Hres|]. rewrite length_app. lia.
  - apply Forall_app in Hun. destruct Hun as [Hv' Hnew].
    destruct (IH Hnew) as (res & Hres & Hlen).
    exists (v ++ res). split.
    + destruct v as [|d v]; [congruence|]. simpl.
      rewrite applyChanges_acc, Hres. reflexivity.
    + rewrite filter_app, length_app.
      replace (filter isMarked v) with (@nil Diagnostic); [simpl; lia|].
      clear - Hv'. induction Hv' as [|d v Hd _ IHv]; [reflexivity|].
      simpl. unfold isMarked at 1. now rewrite Hd.
  - apply Forall_app in Hun. destruct Hun as [_ Hnew].
    destruct (IH Hnew) as (res & Hres & Hlen).
    exists (map markBaselined v ++ res). split.
    + rewrite applyChanges_acc, Hres. reflexivity.
    + rewrite filter_app, !length_app.
      pose proof (filter_length_le isMarked (map markBaselined v)) as Hle.
      rewrite length_map in Hle.
      apply Forall2_length in Hov. lia.
Qed.

(** X10: a baseline entry hides at most one diagnostic: when the diagnostics
    come in unmarked, the returned list has no more marked diagnostics than
    the file has baseline entries. *)
Theorem one_entry_marks_at_most_one (fs : FileSystem) (rootDir file : Uri)
  (ds : list Diagnostic) (entries : list BaselinedDiagnostic) :
  getBaselinedErrorsForFile fs rootDir file = Ok entries ->
  edit_script comparator entries (Array_sort compareDiagnostics ds)
    (diffArrays comparator entries (Array_sort compareDiagnostics ds)) ->
  Forall (fun d => baselineStatus d = None) ds ->
  exists res,
    sortDiagnosticsAndMatchBaseline fs rootDir file ds = Ok res
    /\ (List.length
          (filter (fun d => match baselineStatus d with
                            | Some _ => true
                            | None => false
                            end) res)
        <= List.length entries)%nat.
Proof.
  intros Hload Hdiff Hun. unfold sortDiagnosticsAndMatchBaseline.
  rewrite Hload. simpl.
  apply (applyChanges_marked entries _ _ Hdiff).
  eapply Permutation_Forall; [|exact Hun].
  symmetry. apply Array_sort_perm.
Qed.

(** X11: marking a diagnostic leaves its fingerprint alone: the baseline entry
    written for the marked diagnostic is the one written for the original,
    every entry judges the two alike, and the marked diagnostic is dropped
    from the next baseline only when it has a hint category and is marked
    plainly 'baselined'. *)
Theorem marking_keeps_fingerprint (d : Diagnostic) :
  toBaselinedDiagnostic (markBaselined d) = toBaselinedDiagnostic d
  /\ (forall e, comparator e (markBaselined d) = comparator e d)
  /\ (isErrorDiagnostic (markBaselined d) = false ->
      baselineStatus (markBaselined d) = Some Baselined
      /\ (category d = Deprecated \/ category d = UnreachableCode
          \/ category d = UnusedCode)).
Proof.
  destruct (markBaselined_fields d) as (_ & Hrange & Hrule & Hstatus).
  split; [|split].
  - unfold toBaselinedDiagnostic, getRule. now rewrite Hrange, Hrule.
  - intros e. unfold comparator, getRule. now rewrite Hrange, Hrule.
  - unfold isErrorDiagnostic.
    destruct Hstatus as [-> | [-> ->]].
    + rewrite orb_true_r. discriminate.
    + rewrite orb_false_r. destruct (category d); simpl; intros H;
        try discriminate; auto.
Qed.
(** *** The order of the reports *)

Lemma existsb_Permutation {A : Type} (f : A -> bool) (l1 l2 : list A) :
  Permutation l1 l2 -> existsb f l1 = existsb f l2.
Proof.
  induction 1; simpl; try congruence.
  now destruct (f x), (f y).
Qed.

Lemma entriesFor_Permutation (rootDir : Uri) (p : string)
  (fds1 fds2 : list FileDiagnostics) :
  Permutation fds1 fds2 ->
  NoDup (map (fun fd => getRelativePath rootDir (fileUri fd)) fds1) ->
  entriesFor rootDir fds1 p = entriesFor rootDir fds2 p.
Proof.
  unfold entriesFor.
  induction 1 as [|x l l' Hp IH|x y l|l l' l'' Hp1 IH1 Hp2 IH2];
    intros Hnd; simpl.
  - reflexivity.
  - f_equal. apply IH. now inversion Hnd.
  - inversion Hnd as [|? ? Hy _]; subst.
    assert (Hne : getRelativePath rootDir (fileUri y)
                  <> getRelativePath rootDir (fileUri x))
      by (intros E; apply Hy; now left).
    destruct (getRelativePath rootDir (fileUri x)) as [qx|],
             (getRelativePath rootDir (fileUri y)) as [qy|]; simpl;
      try reflexivity.
    destruct (String.eqb_spec qx p), (String.eqb_spec qy p); simpl;
      rewrite ?app_nil_r; try reflexivity.
    congruence.
  - rewrite IH1 by exact Hnd. apply IH2.
    eapply Permutation_NoDup; [|exact Hnd]. now apply Permutation_map.
Qed.

(** X12: the order in which files are reported does not show in the baseline:
    two runs that report the same files in different orders, each file once,
    make the update return the same baseline and leave the same file system,
    or fail in the same way. *)
Theorem report_order_irrelevant (fs : FileSystem) (rootDir : Uri)
  (fds1 fds2 : list FileDiagnostics) (openFilesOnly : bool) :
  Permutation fds1 fds2 ->
  NoDup (map (fun fd => getRelativePath rootDir (fileUri fd)) fds1) ->
  writeDiagnosticsToBaselineFile fs rootDir fds1 openFilesOnly
  = writeDiagnosticsToBaselineFile fs rootDir fds2 openFilesOnly.
Proof.
  intros Hp Hnd.
  destruct (diagnosticsToBaseline rootDir fds1) as [nb1|e1] eqn:H1.
  - destruct (diagnosticsToBaseline rootDir fds2) as [nb2|e2] eqn:H2.
    + unfold writeDiagnosticsToBaselineFile. rewrite H1, H2. simpl.
      destruct (getBaselinedErrors fs rootDir) as [pb|e]; simpl;
        [|reflexivity].
      assert (Hsame :
                sortedNonEmpty
                  (carryOver fs rootDir openFilesOnly (files pb) (files nb1))
                = sortedNonEmpty
                    (carryOver fs rootDir openFilesOnly (files pb)
                       (files nb2))).
      { apply sorted_obj_ext;
          try (apply sortedNonEmpty_sorted, carryOver_NoDup;
               eapply diagnosticsToBaseline_NoDup; eauto).
        intros k.
        rewrite (write_lookup fs rootDir fds1 openFilesOnly nb1 pb k H1).
        rewrite (write_lookup fs rootDir fds2 openFilesOnly nb2 pb k H2).
        unfold reportsOn. rewrite (existsb_Permutation _ _ _ Hp).
        now rewrite (entriesFor_Permutation rootDir k fds1 fds2 Hp Hnd). }
      now rewrite Hsame.
    + exfalso. unfold diagnosticsToBaseline in H1, H2.
      destruct (diagnosticsToBaseline_loop rootDir [] fds2) as [d2|e] eqn:E2;
        simpl in H2; [discriminate|].
      destruct (diagnosticsToBaseline_loop_ok rootDir fds2) with (acc := @nil (string * list BaselinedDiagnostic))
        as (b & Hb); [|congruence].
      intros fd Hfd Hout.
      assert (Hin1 : In fd fds1)
        by (eapply Permutation_in; [symmetry; exact Hp | exact Hfd]).
      rewrite (diagnosticsToBaseline_loop_throw rootDir fds1
                 (ex_intro _ fd (conj Hin1 Hout)) []) in H1.
      discriminate.
  - assert (Hout : exists fd, In fd fds1
                              /\ getRelativePath rootDir (fileUri fd) = None).
    { destruct (existsb (fun fd =>
                           match getRelativePath rootDir (fileUri fd) with
                           | Some _ => false
                           | None => true
                           end) fds1) eqn:Ex.
      - apply existsb_exists in Ex. destruct Ex as (fd & Hfd & Hn).
        exists fd. split; [exact Hfd|].
        now destruct (getRelativePath rootDir (fileUri fd)).
      - exfalso.
        destruct (diagnosticsToBaseline_ok rootDir fds1) as (b & Hb);
          [|congruence].
        intros fd Hfd Hn.
        assert (Ht : existsb (fun fd =>
                           match getRelativePath rootDir (fileUri fd) with
                           | Some _ => false
                           | None => true
                           end) fds1 = true)
          by (apply existsb_exists; exists fd; split;
              [exact Hfd | now rewrite Hn]).
        congruence. }
    assert (Hout2 : exists fd, In fd fds2
                               /\ getRelativePath rootDir (fileUri fd) = None).
    { destruct Hout as (fd & Hfd & Hn). exists fd. split; [|exact Hn].
      eapply Permutation_in; eauto. }
    unfold writeDiagnosticsToBaselineFile, diagnosticsToBaseline.
    rewrite (diagnosticsToBaseline_loop_throw rootDir fds1 Hout []).
    rewrite (diagnosticsToBaseline_loop_throw rootDir fds2 Hout2 []).
    reflexivity.
Qed.

(** *** [getBaselineSummaryMessage] *)

Lemma list_sum_Permutation (l1 l2 : list nat) :
  Permutation l1 l2 -> list_sum l1 = list_sum l2.
Proof. induction 1; simpl; lia. Qed.

Lemma entryCount_by_key (o : JsObject (list BaselinedDiagnostic)) :
  NoDup (obj_keys o) ->
  List.length (List.concat (map snd o))
  = list_sum
      (map (fun k => List.length (match obj_get o k with
                                  | Some v => v
                                  | None => []
                                  end)) (obj_keys o)).
Proof.
  induction o as [|[k v] o IH]; simpl; intros Hnd; [reflexivity|].
  inversion Hnd as [|? ? Hnotin Hnd']; subst.
  rewrite length_app, String.eqb_refl, (IH Hnd'). f_equal. f_equal.
  apply map_ext_in. intros k' Hk'.
  destruct (String.eqb_spec k k') as [->|]; [contradiction | reflexivity].
Qed.

Lemma sortedNonEmpty_fold_count
  (newBaseline : JsObject (list BaselinedDiagnostic)) (ks : list string) :
  NoDup ks ->
  forall acc,
    (forall k, In k ks -> ~ In k (obj_keys acc)) ->
    List.length
      (List.concat
         (map snd
            (fold_left
               (fun result file =>
                  match obj_get newBaseline file with
                  | Some (e :: entries) => obj_set result file (e :: entries)
                  | _ => result
                  end) ks acc)))
    = (List.length (List.concat (map snd acc))
       + list_sum
           (map (fun k => List.length (match obj_get newBaseline k with
                                       | Some v => v
                                       | None => []
                                       end)) ks))%nat.
Proof.
  induction 1 as [|a ks Hnotin Hnd IH]; intros acc Hfresh; simpl; [lia|].
  assert (Hrest : forall k, In k ks -> ~ In k (obj_keys acc))
    by (intros k Hk; apply Hfresh; now right).
  assert (Ha : obj_get acc a = None)
    by (apply obj_get_none_keys, Hfresh; now left).
  destruct (obj_get newBaseline a) as [[|e entries]|] eqn:E.
  - rewrite IH by exact Hrest. simpl. lia.
  - rewrite IH.
    + pose proof (entryCount_set acc a (e :: entries)) as Hset.
      rewrite Ha in Hset. simpl in Hset. simpl. lia.
    + intros k Hk Hin. apply obj_keys_set_In in Hin.
      destruct Hin as [->|Hin]; [contradiction | now apply (Hrest k)].
  - rewrite IH by exact Hrest. simpl. lia.
Qed.

Lemma errorCount_concat (b : BaselineFile) :
  errorCount b = Z.of_nat (List.length (List.concat (map snd (files b)))).
Proof.
  unfold errorCount. now rewrite flat_map_concat_map, map_id.
Qed.

Lemma errorCount_sortedNonEmpty (o : JsObject (list BaselinedDiagnostic)) :
  NoDup (obj_keys o) ->
  errorCount {| files := sortedNonEmpty o |} = errorCount {| files := o |}.
Proof.
  intros Hnd. rewrite !errorCount_concat. simpl. f_equal.
  unfold sortedNonEmpty. rewrite sortedNonEmpty_fold_count.
  - rewrite (entryCount_by_key o Hnd). simpl.
    apply list_sum_Permutation, Permutation_map, Array_sort_perm.
  - eapply Permutation_NoDup; [|exact Hnd]. symmetry. apply Array_sort_perm.
  - intros k _ [].
Qed.

(** X13: for a project without a baseline file, the summary of the first
    update counts the diagnostics the run kept: it says the count went up by
    that number, or that it did not change when none was kept; it never says
    the count went down. *)
Theorem first_update_summary (pluralize : Z -> string -> string)
  (fs : FileSystem) (rootDir : Uri) (fds : list FileDiagnostics)
  (openFilesOnly : bool) :
  readFileSync fs (baselineFilePath rootDir) = None ->
  (forall fd, In fd fds -> getRelativePath rootDir (fileUri fd) <> None) ->
  exists previousBaseline result fs',
    getBaselinedErrors fs rootDir = Ok previousBaseline
    /\ writeDiagnosticsToBaselineFile fs rootDir fds openFilesOnly
       = Ok (result, fs')
    /\ getBaselineSummaryMessage pluralize rootDir previousBaseline result
       = (let kept :=
            Z.of_nat (List.length
                        (filter isErrorDiagnostic (flat_map diagnostics fds)))
          in
          "updated "
          ++ templateString
               (getRelativePath rootDir (baselineFilePath rootDir))
          ++ " with " ++ pluralize kept "error" ++ " ("
          ++ (if (kept =? 0)%Z then "error count didn't change"
              else "went up by " ++ string_of_Z kept)
          ++ ")")%string.
Proof.
  intros Hmissing Hfds.
  assert (Hprev : getBaselinedErrors fs rootDir = Ok {| files := [] |})
    by (unfold getBaselinedErrors; now rewrite Hmissing).
  destruct (diagnosticsToBaseline_ok rootDir fds Hfds) as (nb & Hnew).
  pose proof (writeDiagnosticsToBaselineFile_ok fs rootDir fds openFilesOnly
                nb _ Hnew Hprev) as Hw.
  simpl in Hw. eexists. eexists. eexists.
  split; [exact Hprev|]. split; [exact Hw|].
  assert (Hcount :
            errorCount
              {| files := sortedNonEmpty
                            (carryOver fs rootDir openFilesOnly [] (files nb)) |}
            = Z.of_nat (List.length
                          (filter isErrorDiagnostic
                             (flat_map diagnostics fds)))).
  { unfold carryOver. simpl.
    rewrite errorCount_sortedNonEmpty
      by (eapply diagnosticsToBaseline_NoDup; eauto).
    rewrite errorCount_concat. simpl.
    unfold diagnosticsToBaseline in Hnew.
    destruct (diagnosticsToBaseline_loop rootDir [] fds) as [data|] eqn:E;
      simpl in Hnew; [|discriminate].
    injection Hnew as <-. simpl.
    now rewrite (diagnosticsToBaseline_loop_count rootDir fds [] data E). }
  unfold getBaselineSummaryMessage. rewrite Hcount.
  change (errorCount {| files := [] |}) with 0. rewrite Z.sub_0_r. simpl.
  set (kept := Z.of_nat _).
  destruct (Z.eqb_spec kept 0) as [|Hne]; [reflexivity|].
  assert (Hpos : (kept >? 0) = true) by (apply Z.gtb_lt; unfold kept in *; lia).
  now rewrite Hpos.
Qed.

(** X14: the entries a rebuild writes all carry a line count, the number of
    lines their diagnostic spans, so none of them matches as a wildcard. *)
Theorem built_entries_carry_lineCount (rootDir : Uri)
  (fds : list FileDiagnostics) (b : BaselineFile) :
  diagnosticsToBaseline rootDir fds = Ok b ->
  forall p entries e,
    obj_get (files b) p = Some entries -> In e entries ->
    exists fd d,
      In fd fds /\ In d (diagnostics fd)
      /\ rangeLineCount (brange e)
         = Some (line (end_ (range d)) - line (start (range d)) + 1).
Proof.
  unfold diagnosticsToBaseline.
  destruct (diagnosticsToBaseline_loop rootDir [] fds) as [data|] eqn:E;
    simpl; [|discriminate].
  intros [= <-] p entries e Hget He. simpl in Hget.
  destruct (diagnosticsToBaseline_loop_origin rootDir fds [] data E
              p entries e Hget He)
    as [(entries0 & H0 & _) | (fd & d & Hfd & _ & Hd & _ & ->)];
    [discriminate|].
  exists fd, d. repeat split; auto.
Qed.
End MoreProperties.

(** ** The further properties on the sample project *)

(** The rebuild of the sample run: the error of [a.py] and nothing else. *)
Lemma diagnosticsToBaseline_exact_witness :
  exists b,
    @diagnosticsToBaseline reference sampleRoot sampleRun = Ok b
    /\ obj_get (files b) "./a.py" = Some [toBaselinedDiagnostic newError].
Proof.
  destruct (@diagnosticsToBaseline_exact reference sampleRoot sampleRun)
    as (b & Hb & _ & Hkeys & Hget).
  - intros fd [<-|[]]. vm_compute. discriminate.
  - exists b. split; [exact Hb|].
    rewrite Hget; [reflexivity|].
    apply Hkeys. exists (mkFileDiagnostics "/proj/a.py" [newError; unusedHint]).
    split; [now left | reflexivity].
Defined.

(** A report on a file of another directory, with an unparsable baseline. *)
Lemma outside_file_aborts_update_witness :
  @diagnosticsToBaseline reference sampleRoot
    [mkFileDiagnostics "/elsewhere/a.py" [newError]] = Throw TypeError
  /\ @writeDiagnosticsToBaselineFile reference corruptFs sampleRoot
       [mkFileDiagnostics "/elsewhere/a.py" [newError]] false
     = Throw TypeError.
Proof.
  apply outside_file_aborts_update.
  exists (mkFileDiagnostics "/elsewhere/a.py" [newError]).
  split; [now left | reflexivity].
Defined.


(** What the exhaustive update keeps, the update on open files keeps too. *)
Lemma open_files_only_keeps_more_witness :
  exists result1 fs1,
    @writeDiagnosticsToBaselineFile reference sampleFs sampleRoot sampleRun
      true = Ok (result1, fs1)
    /\ obj_get (files result1) "./a.py"
       = Some [toBaselinedDiagnostic newError].
Proof.
  assert (Hfirst :
            @writeDiagnosticsToBaselineFile reference sampleFs sampleRoot
              sampleRun false
            = Ok (sampleUpdated,
                  writeFileSync sampleFs
                    (posixCombinePaths sampleRoot
                       ".basedpyright/baseline.json")
                    (jsonStringify sampleUpdated)))
    by (vm_compute; reflexivity).
  destruct (@open_files_only_keeps_more reference sampleFs sampleRoot
              sampleRun _ _ Hfirst) as (result1 & fs1 & Hw & Hsub).
  exists result1, fs1. split; [exact Hw|].
  apply Hsub. vm_compute. reflexivity.
Defined.

(** The source file [a.py] reads the same after the update. *)
Lemma update_touches_baseline_file_only_witness :
  readFileSync
    (writeFileSync sampleFs
       (posixCombinePaths sampleRoot ".basedpyright/baseline.json")
       (jsonStringify sampleUpdated)) "/proj/a.py"
  = readFileSync sampleFs "/proj/a.py".
Proof.
  assert (Hfirst :
            @writeDiagnosticsToBaselineFile reference sampleFs sampleRoot
              sampleRun false
            = Ok (sampleUpdated,
                  writeFileSync sampleFs
                    (posixCombinePaths sampleRoot
                       ".basedpyright/baseline.json")
                    (jsonStringify sampleUpdated)))
    by (vm_compute; reflexivity).
  apply (@update_touches_baseline_file_only reference sampleFs sampleRoot
           sampleRun false _ _ Hfirst "/proj/a.py").
  vm_compute. discriminate.
Defined.

(** Loading after the exhaustive update of the sample project. *)
Lemma load_after_update_witness :
  @getBaselinedErrors reference
    (writeFileSync sampleFs
       (posixCombinePaths sampleRoot ".basedpyright/baseline.json")
       (jsonStringify sampleUpdated)) sampleRoot
  = Ok sampleUpdated
  /\ @getBaselinedErrorsForFile reference
       (writeFileSync sampleFs
          (posixCombinePaths sampleRoot ".basedpyright/baseline.json")
          (jsonStringify sampleUpdated)) sampleRoot "/proj/a.py"
     = Ok [toBaselinedDiagnostic newError].
Proof.
  assert (Hfirst :
            @writeDiagnosticsToBaselineFile reference sampleFs sampleRoot
              sampleRun false
            = Ok (sampleUpdated,
                  writeFileSync sampleFs
                    (posixCombinePaths sampleRoot
                       ".basedpyright/baseline.json")
                    (jsonStringify sampleUpdated)))
    by (vm_compute; reflexivity).
  assert (Hround : jsonParse (jsonStringify sampleUpdated)
                   = Parsed sampleUpdated) by (vm_compute; reflexivity).
  destruct (@load_after_update reference sampleFs sampleRoot sampleRun false
              _ _ Hfirst Hround) as (Hload & Hfile).
  split; [exact Hload|].
  apply (Hfile "/proj/a.py" "./a.py"); [reflexivity | discriminate].
Defined.

(** An unparsable baseline and a file of the project. *)
Lemma load_failure_reaches_reconciliation_witness :
  @getBaselinedErrorsForFile reference corruptFs sampleRoot "/proj/a.py"
  = Throw SyntaxError
  /\ @sortDiagnosticsAndMatchBaseline reference corruptFs sampleRoot
       "/proj/a.py" [newError] = Throw SyntaxError.
Proof.
  destruct (@load_failure_reaches_reconciliation reference corruptFs
              sampleRoot "/proj/a.py" "./a.py" SyntaxError)
    as (Hfile & Hsort);
    [reflexivity | discriminate | vm_compute; reflexivity |].
  split; [exact Hfile | apply Hsort].
Defined.

(** A project without a baseline file. *)
Lemma nothing_recorded_passes_all_witness :
  @sortDiagnosticsAndMatchBaseline reference [] sampleRoot "/proj/a.py"
    [newError; deprecatedCall]
  = Ok [deprecatedCall; newError].
Proof.
  apply (@nothing_recorded_passes_all reference [] sampleRoot "/proj/a.py"
           [newError; deprecatedCall]).
  - reflexivity.
  - apply (lcsDiff_edit_script comparator []).
Defined.

(** Three diagnostics of [a.py] against its two baseline entries. *)
Lemma reconciliation_keeps_content_witness :
  exists res,
    @sortDiagnosticsAndMatchBaseline reference sampleFs sampleRoot
      "/proj/a.py" [newError; unboundAt 15; deprecatedCall] = Ok res
    /\ map (fun d => (message d, range d, rule d)) res
       = map (fun d => (message d, range d, rule d))
           [deprecatedCall; unboundAt 15; newError].
Proof.
  assert (Hload :
            @getBaselinedErrorsForFile reference sampleFs sampleRoot
              "/proj/a.py"
            = Ok [toBaselinedDiagnostic deprecatedCall;
                  toBaselinedDiagnostic (unboundAt 10)])
    by (vm_compute; reflexivity).
  destruct (@reconciliation_keeps_content reference sampleFs sampleRoot
              "/proj/a.py" [newError; unboundAt 15; deprecatedCall] _ Hload
              (lcsDiff_edit_script _ _ _)) as (res & Hres & Hmap & _).
  exists res. split; [exact Hres | exact Hmap].
Defined.

Lemma one_entry_marks_at_most_one_witness :
  exists res,
    @sortDiagnosticsAndMatchBaseline reference sampleFs sampleRoot
      "/proj/a.py" [newError; unboundAt 15; deprecatedCall] = Ok res
    /\ (List.length
          (filter (fun d => match baselineStatus d with
                            | Some _ => true
                            | None => false
                            end) res) <= 2)%nat.
Proof.
  assert (Hload :
            @getBaselinedErrorsForFile reference sampleFs sampleRoot
              "/proj/a.py"
            = Ok [toBaselinedDiagnostic deprecatedCall;
                  toBaselinedDiagnostic (unboundAt 10)])
    by (vm_compute; reflexivity).
  apply (@one_entry_marks_at_most_one reference sampleFs sampleRoot
           "/proj/a.py" [newError; unboundAt 15; deprecatedCall] _ Hload
           (lcsDiff_edit_script _ _ _)).
  repeat constructor.
Defined.

(** Two files reported in the two possible orders. *)
Lemma report_order_irrelevant_witness :
  @writeDiagnosticsToBaselineFile reference sampleFs sampleRoot
    [mkFileDiagnostics "/proj/a.py" [newError];
     mkFileDiagnostics "/proj/c.py" [tieShort]] false
  = @writeDiagnosticsToBaselineFile reference sampleFs sampleRoot
      [mkFileDiagnostics "/proj/c.py" [tieShort];
       mkFileDiagnostics "/proj/a.py" [newError]] false.
Proof.
  apply report_order_irrelevant.
  - apply perm_swap.
  - vm_compute. constructor; [intros [H|[]]; discriminate H|].
    constructor; [intros []|constructor].
Defined.

(** The first update of the sample project, started without a baseline. *)
Lemma first_update_summary_witness :
  exists previousBaseline result fs',
    @getBaselinedErrors reference [("/proj/a.py", "import x")] sampleRoot
    = Ok previousBaseline
    /\ @writeDiagnosticsToBaselineFile reference [("/proj/a.py", "import x")]
         sampleRoot sampleRun false = Ok (result, fs')
    /\ @getBaselineSummaryMessage reference countNoun sampleRoot
         previousBaseline result
       = "updated ./.basedpyright/baseline.json with 1 error (went up by 1)".
Proof.
  destruct (@first_update_summary reference countNoun
              [("/proj/a.py", "import x")] sampleRoot sampleRun false)
    as (pb & result & fs' & Hprev & Hw & Hmsg).
  - reflexivity.
  - intros fd [<-|[]]. vm_compute. discriminate.
  - exists pb, result, fs'. split; [exact Hprev|]. split; [exact Hw|].
    rewrite Hmsg. vm_compute. reflexivity.
Defined.

(** The entry of the sample run spans one line. *)
Lemma built_entries_carry_lineCount_witness :
  exists fd d,
    In fd sampleRun /\ In d (diagnostics fd)
    /\ rangeLineCount (brange (toBaselinedDiagnostic newError))
       = Some (line (end_ (range d)) - line (start (range d)) + 1).
Proof.
  apply (@built_entries_carry_lineCount reference sampleRoot sampleRun
           sampleUpdated (eq_refl _) "./a.py"
           [toBaselinedDiagnostic newError]).
  - reflexivity.
  - now left.
Defined.
